(** * CFNgin (runway): diff engine, variable resolution, user-data templating
      and hook execution

    A shallow embedding of

    - [runway/cfngin/actions/diff.py]   ([DictValue], [diff_dictionaries],
      [diff_parameters], [Action._diff_stack]),
    - [runway/cfngin/blueprints/base.py] ([CFNParameter],
      [validate_variable_type], [validate_allowed_values],
      [resolve_variable], [parse_user_data], the variables of
      [Blueprint]),
    - [runway/cfngin/hooks/utils.py]    ([handle_hooks],
      [filter_commands], [merge_commands], [Docker.__init__]),

    followed by the properties established about them.

    Conventions.  Python text is a Rocq [string] (a sequence of 8-bit
    characters; exact for ASCII text, and bytewise order agrees with code
    point order on UTF-8).  Python [int] is [Z].  A [dict] with string keys
    is a [gmap string _]; a [set] of strings is a [gset string].  Raising is
    a result in a sum type, and code that also logs or updates the run
    context lives in a state-and-exception monad. *)

From stdpp Require Import base strings list gmap sorting pretty.
From Stdlib Require Import ZArith Ascii.

Local Open Scope Z_scope.
Local Set Warnings "-register-all,-clear-no-such-hyp".

(* ===================================================================== *)
(** * Python values *)
(* ===================================================================== *)

(** The values that flow through the modelled code: the scalars and lists a
    configuration file can hold, plus opaque objects (a troposphere resource,
    say).  An opaque object carries its identity, the names of the classes on
    its method resolution order (most derived first, [object] left out), and
    its printed form. *)
Inductive value : Type :=
  | VNone
  | VBool (b : bool)
  | VInt (n : Z)
  | VStr (s : string)
  | VList (l : list value)
  | VObject (id : positive) (mro : list string) (repr : string).

Global Instance value_inhabited : Inhabited value := populate VNone.

(** [v is None]. *)
Definition is_none (v : value) : bool :=
  match v with VNone => true | _ => false end.

(** [a == b].  [bool] is a subclass of [int], so [True == 1]; lists compare
    element by element; an opaque object is equal to itself only. *)
Fixpoint py_eq (a b : value) : bool :=
  match a, b with
  | VNone, VNone => true
  | VBool x, VBool y => Z.eqb (Z.b2z x) (Z.b2z y)
  | VBool x, VInt y => Z.eqb (Z.b2z x) y
  | VInt x, VBool y => Z.eqb x (Z.b2z y)
  | VInt x, VInt y => Z.eqb x y
  | VStr x, VStr y => String.eqb x y
  | VList x, VList y =>
      (fix list_eq (l1 l2 : list value) {struct l1} : bool :=
         match l1, l2 with
         | [], [] => true
         | u :: l1', w :: l2' => py_eq u w && list_eq l1' l2'
         | _, _ => false
         end) x y
  | VObject i _ _, VObject j _ _ => Pos.eqb i j
  | _, _ => false
  end.

(** [bool(v)]: the truth value of an object. *)
Definition py_truthy (v : value) : bool :=
  match v with
  | VNone => false
  | VBool b => b
  | VInt n => negb (Z.eqb n 0)
  | VStr s => negb (String.eqb s "")
  | VList l => match l with [] => false | _ => true end
  | VObject _ _ _ => true
  end.

(** ** Printed forms: [str] and [repr] *)

Definition hex_digit (n : N) : ascii :=
  match n with
  | 0 => "0" | 1 => "1" | 2 => "2" | 3 => "3" | 4 => "4" | 5 => "5"
  | 6 => "6" | 7 => "7" | 8 => "8" | 9 => "9" | 10 => "a" | 11 => "b"
  | 12 => "c" | 13 => "d" | 14 => "e" | _ => "f"
  end%N%char.

Fixpoint string_contains (c : ascii) (s : string) : bool :=
  match s with
  | EmptyString => false
  | String c' s' => Ascii.eqb c c' || string_contains c s'
  end.

(** The double quote character. *)
Definition dquote : ascii := ascii_of_N 34.

(** The quote [repr] puts around a string: a single quote, unless the string
    holds a single quote and no double quote. *)
Definition repr_quote (s : string) : ascii :=
  if string_contains "'" s && negb (string_contains dquote s)
  then dquote else "'"%char.

Definition repr_char (quote c : ascii) : string :=
  let n := N_of_ascii c in
  if Ascii.eqb c "\" then "\\"
  else if Ascii.eqb c quote then String "\" (String quote "")
  else if N.eqb n 9 then "\t"
  else if N.eqb n 10 then "\n"
  else if N.eqb n 13 then "\r"
  else if N.ltb n 32 || N.eqb n 127 then
    String "\" (String "x" (String (hex_digit (n / 16)%N)
                              (String (hex_digit (n mod 16)%N) "")))
  else String c "".

Fixpoint repr_body (quote : ascii) (s : string) : string :=
  match s with
  | EmptyString => ""
  | String c s' => repr_char quote c +:+ repr_body quote s'
  end.

(** [repr(s)] for a string [s]. *)
Definition py_repr_str (s : string) : string :=
  let q := repr_quote s in
  String q (repr_body q s +:+ String q "").

(** [", ".join(parts)] and friends. *)
Fixpoint join (sep : string) (parts : list string) : string :=
  match parts with
  | [] => ""
  | [p] => p
  | p :: rest => p +:+ sep +:+ join sep rest
  end.

(** [repr(v)]. *)
Fixpoint py_repr (v : value) : string :=
  match v with
  | VNone => "None"
  | VBool true => "True"
  | VBool false => "False"
  | VInt n => pretty n
  | VStr s => py_repr_str s
  | VList l => "[" +:+ join ", " (map py_repr l) +:+ "]"
  | VObject _ _ r => r
  end.

(** [str(v)]: the string itself for a string, [repr] otherwise. *)
Definition py_str (v : value) : string :=
  match v with
  | VStr s => s
  | _ => py_repr v
  end.

(** [s.lower()] on ASCII letters. *)
Definition lower_char (c : ascii) : ascii :=
  let n := N_of_ascii c in
  if N.leb 65 n && N.leb n 90 then ascii_of_N (n + 32) else c.

Fixpoint lower (s : string) : string :=
  match s with
  | EmptyString => EmptyString
  | String c s' => String (lower_char c) (lower s')
  end.

(** ** Types and [isinstance] *)

Inductive pytype : Type :=
  | TObject
  | TNoneType
  | TBool
  | TInt
  | TStr
  | TList
  | TClass (name : string).

Global Instance pytype_eq_dec : EqDecision pytype.
Proof. solve_decision. Defined.

(** [type(v).__mro__]. *)
Definition mro_of (v : value) : list pytype :=
  match v with
  | VNone => [TNoneType; TObject]
  | VBool _ => [TBool; TInt; TObject]
  | VInt _ => [TInt; TObject]
  | VStr _ => [TStr; TObject]
  | VList _ => [TList; TObject]
  | VObject _ mro _ => map TClass mro ++ [TObject]
  end.

(** [type(v)]. *)
Definition type_of (v : value) : pytype :=
  match v with
  | VNone => TNoneType
  | VBool _ => TBool
  | VInt _ => TInt
  | VStr _ => TStr
  | VList _ => TList
  | VObject _ mro _ => match mro with c :: _ => TClass c | [] => TObject end
  end.

(** [isinstance(v, t)]: [t] is on the method resolution order of [type(v)]. *)
Definition isinstance (v : value) (t : pytype) : bool :=
  bool_decide (t ∈ mro_of v).

(** [str(t)] for a class [t]. *)
Definition type_str (t : pytype) : string :=
  match t with
  | TObject => "<class 'object'>"
  | TNoneType => "<class 'NoneType'>"
  | TBool => "<class 'bool'>"
  | TInt => "<class 'int'>"
  | TStr => "<class 'str'>"
  | TList => "<class 'list'>"
  | TClass name => "<class '" +:+ name +:+ "'>"
  end.

(** [x in l] for a list [l]: some element is [x] or equal to it. *)
Definition py_in (x : value) (l : list value) : bool :=
  existsb (fun e => py_eq x e) l.

(* ===================================================================== *)
(** * Exceptions and results *)
(* ===================================================================== *)

(** A variable handed to a blueprint ([runway.variables.Variable], as far as
    [resolve_variable] reads it; [Variable] is a reserved word here). *)
Record Variable_ : Type := mkVariable {
  variable_name : string;
  resolved : bool;
  variable_value : value
}.

(** The exceptions the modelled code raises, catches or lets through.
    [SystemExit] and [KeyboardInterrupt] derive from [BaseException] only;
    every other one is an [Exception]. *)
Inductive exn : Type :=
  | SystemExit (code : Z)
  | KeyboardInterrupt
  | PyException (cls : string) (msg : string)
  | AttributeError (msg : string)
  | ImportError (msg : string)
  | KeyError (key : string)
  | ValueError (msg : string)
  | StackDidNotChange
  | VariableTypeRequired (blueprint_name : string) (variable_name : string)
  | UnresolvedVariable (blueprint_name : string) (variable : Variable_)
  | MissingVariable (blueprint_name : string) (variable_name : string + exn)
  | ValidatorError (variable : string) (validator : string) (v : value)
                   (exception : exn)
  | InvalidUserdataPlaceholder (blueprint_name : string) (exc_message : string).

(** [isinstance(e, Exception)]: what [except Exception] catches. *)
Definition is_Exception (e : exn) : bool :=
  match e with
  | SystemExit _ | KeyboardInterrupt => false
  | _ => true
  end.

(** The outcome of a call: a raised exception or a returned value. *)
Definition result (A : Type) : Type := exn + A.

Definition Raise {A} (e : exn) : result A := inl e.
Definition Return {A} (a : A) : result A := inr a.

Definition bind {A B} (r : result A) (k : A -> result B) : result B :=
  match r with
  | inl e => inl e
  | inr a => k a
  end.

Declare Scope py_scope.
Delimit Scope py_scope with py.
Notation "'let!' x ':=' r 'in' k" := (bind r (fun x => k))
  (at level 10, x name, r at level 100, k at level 200) : py_scope.
Local Open Scope py_scope.

(* ===================================================================== *)
(** * The diff engine ([actions/diff.py]) *)
(* ===================================================================== *)

Module DictValue.

(** The four classifications, [DictValue.ADDED] and so on. *)
Inductive status_t : Type := ADDED | REMOVED | MODIFIED | UNMODIFIED.

Global Instance status_eq_dec : EqDecision status_t.
Proof. solve_decision. Defined.

(** [DictValue(key, old_value, new_value)]. *)
Record t : Type := mk {
  key : string;
  old_value : value;
  new_value : value
}.

(** [DictValue.status]. *)
Definition status (self : t) : status_t :=
  if py_eq (old_value self) (new_value self) then UNMODIFIED
  else if is_none (old_value self) then ADDED
  else if is_none (new_value self) then REMOVED
  else MODIFIED.

(** [formatter % (sign, key, value)] with [formatter = "%s%s = %s"]. *)
Definition formatter (sign : string) (k : string) (v : value) : string :=
  sign +:+ k +:+ " = " +:+ py_str v.

(** [DictValue.changes]. *)
Definition changes (self : t) : list string :=
  match status self with
  | UNMODIFIED => [formatter " " (key self) (old_value self)]
  | ADDED => [formatter "+" (key self) (new_value self)]
  | REMOVED => [formatter "-" (key self) (old_value self)]
  | MODIFIED => [formatter "-" (key self) (old_value self);
                 formatter "+" (key self) (new_value self)]
  end.

End DictValue.

(** The order [output.sort(key=attrgetter("key"))] sorts by. *)
Definition key_le (a b : DictValue.t) : Prop :=
  String.le (DictValue.key a) (DictValue.key b).

Global Instance key_le_dec : RelDecision key_le.
Proof. intros a b. unfold key_le. apply _. Defined.

(** The loop state of [diff_dictionaries]: the counter [changes] and the list
    [output]. *)
Definition diff_acc : Type := nat * list DictValue.t.

(** The body of [for key in added_set]. *)
Definition added_step (new_dict : gmap string value)
    (acc : diff_acc) (key : string) : diff_acc :=
  ((acc.1 + 1)%nat,
   acc.2 ++ [DictValue.mk key VNone (new_dict !!! key)]).

(** The body of [for key in removed_set]. *)
Definition removed_step (old_dict : gmap string value)
    (acc : diff_acc) (key : string) : diff_acc :=
  ((acc.1 + 1)%nat,
   acc.2 ++ [DictValue.mk key (old_dict !!! key) VNone]).

(** The body of [for key in common_set]. *)
Definition common_step (old_dict new_dict : gmap string value)
    (acc : diff_acc) (key : string) : diff_acc :=
  let output := acc.2 ++ [DictValue.mk key (old_dict !!! key) (new_dict !!! key)] in
  if negb (String.eqb (py_str (old_dict !!! key)) (py_str (new_dict !!! key)))
  then ((acc.1 + 1)%nat, output)
  else (acc.1, output).

(** [diff_dictionaries(old_dict, new_dict)].  A set is iterated in the order
    [elements] lists it; the keys of [output] are distinct, so the sort
    leaves no trace of that order. *)
Definition diff_dictionaries (old_dict new_dict : gmap string value)
    : nat * list DictValue.t :=
  let old_set : gset string := dom old_dict in
  let new_set : gset string := dom new_dict in
  let added_set := new_set ∖ old_set in
  let removed_set := old_set ∖ new_set in
  let common_set := old_set ∩ new_set in
  let acc : diff_acc := (0%nat, []) in
  let acc := foldl (added_step new_dict) acc (elements added_set) in
  let acc := foldl (removed_step old_dict) acc (elements removed_set) in
  let acc := foldl (common_step old_dict new_dict) acc (elements common_set) in
  (acc.1, merge_sort key_le acc.2).

(** [diff_parameters(old_params, new_params)]. *)
Definition diff_parameters (old_params new_params : gmap string value)
    : list DictValue.t :=
  let '(changes, diff) := diff_dictionaries old_params new_params in
  if Nat.eqb changes 0 then [] else diff.

(** [format_params_diff(parameter_diff)]. *)
Definition format_params_diff (parameter_diff : list DictValue.t) : string :=
  let params_output :=
    join (String (ascii_of_N 10) "")
         (concat (map DictValue.changes parameter_diff)) in
  "--- Old Parameters" +:+ String (ascii_of_N 10) "" +:+
  "+++ New Parameters" +:+ String (ascii_of_N 10) "" +:+
  "******************" +:+ String (ascii_of_N 10) "" +:+
  params_output +:+ String (ascii_of_N 10) "".


(* ===================================================================== *)
(** * Blueprint variables ([blueprints/base.py]) *)
(* ===================================================================== *)

Module CFNParameter.

(** A [CFNParameter] object: [self.name] and [self.value]. *)
Record t : Type := mk {
  name : string;
  val : value
}.

(** [acceptable_types = [string_types, bool, list, int]]. *)
Definition acceptable_types : list pytype := [TStr; TBool; TList; TInt].

(** The [for acceptable_type in acceptable_types] loop of [__init__]: the
    state is the flag [acceptable] and the (possibly converted) value; a
    [break] ends the loop at once.  The tests look at the value the
    constructor was given. *)
Fixpoint init_loop (types : list pytype) (acceptable : bool) (v : value)
    : bool * value :=
  match types with
  | [] => (acceptable, v)
  | acceptable_type :: rest =>
      if isinstance v acceptable_type then
        if bool_decide (acceptable_type = TBool)
        then (true, VStr (lower (py_str v)))
        else if bool_decide (acceptable_type = TInt)
        then (true, VStr (py_str v))
        else init_loop rest true v
      else init_loop rest acceptable v
  end.

(** [CFNParameter(name, value)]. *)
Definition init (name : string) (v : value) : result t :=
  let '(acceptable, v') := init_loop acceptable_types false v in
  if negb acceptable then
    Raise (ValueError ("CFNParameter (" +:+ name +:+ ") value must be one of "
                       +:+ "str, int, bool, or list" +:+ " got: " +:+ py_str v'))
  else Return (mk name v').

(** [__repr__]. *)
Definition repr (self : t) : string :=
  "CFNParameter(" +:+ name self +:+ ": " +:+ py_str (val self) +:+ ")".

(** [to_parameter_value]. *)
Definition to_parameter_value (self : t) : value := val self.

End CFNParameter.

(** What resolution hands back: the value as it is, or the value wrapped in a
    [CFNParameter]. *)
Inductive rvalue : Type :=
  | Plain (v : value)
  | CFNParam (p : CFNParameter.t).

(** [isinstance(value, CFNParameter)]. *)
Definition is_CFNParameter (v : rvalue) : bool :=
  match v with CFNParam _ => true | Plain _ => false end.

(** [str(value)] of a resolved value. *)
Definition rvalue_str (v : rvalue) : string :=
  match v with
  | Plain v => py_str v
  | CFNParam p => CFNParameter.repr p
  end.

(** The declared type of a variable: an instance of [CFNType], an instance of
    [TroposphereType] (with its [resource_name] and its [create] method,
    which live in [variables/types.py]), or a Python class. *)
Inductive var_type_t : Type :=
  | CFNType (parameter_type : string)
  | TroposphereType (resource_name : string) (create : value -> result value)
  | PyType (t : pytype).

(** [str(allowed_values)] in the error message of [resolve_variable]. *)
Definition allowed_values_str (allowed_values : option (list value)) : string :=
  match allowed_values with
  | None => "None"
  | Some l => py_str (VList l)
  end.

(** The message of the [ValueError] of the allowed-values check. *)
Definition invalid_value_message (var_name blueprint_name : string)
    (v : rvalue) (allowed_values : option (list value)) : string :=
  "Invalid value passed to '" +:+ var_name +:+ "' in blueprint: "
    +:+ blueprint_name +:+ ". Got: '" +:+ rvalue_str v
    +:+ "', expected one of " +:+ allowed_values_str allowed_values.

(** The message of the [ValueError] of the type check. *)
Definition type_error_message (var_name : string) (t : pytype) (v : value)
    : string :=
  "Value for variable " +:+ var_name +:+ " must be of type " +:+ type_str t
    +:+ ". Actual type: " +:+ type_str (type_of v) +:+ ".".

(** [validate_variable_type(var_name, var_type, value)]. *)
Definition validate_variable_type (var_name : string) (var_type : var_type_t)
    (v : value) : result rvalue :=
  match var_type with
  | CFNType _ =>
      let! p := CFNParameter.init var_name v in
      Return (CFNParam p)
  | TroposphereType resource_name create =>
      match create v with
      | inr v' => Return (Plain v')
      | inl exc =>
          if is_Exception exc then
            let name := resource_name +:+ ".create" in
            Raise (ValidatorError var_name name v exc)
          else Raise exc
      end
  | PyType t =>
      if negb (isinstance v t) then
        Raise (ValueError (type_error_message var_name t v))
      else Return (Plain v)
  end.

(** [validate_allowed_values(allowed_values, value)]. *)
Definition validate_allowed_values (allowed_values : option (list value))
    (v : rvalue) : bool :=
  (* [not allowed_values]: the key is missing, or holds [None] or [[]] *)
  let not_allowed_values :=
    match allowed_values with Some (_ :: _) => false | _ => true end in
  if not_allowed_values || is_CFNParameter v then true
  else
    match allowed_values, v with
    | Some l, Plain x => py_in x l
    | _, _ => true
    end.

Module Validator.

(** A validator callable: its [__name__] and what calling it does. *)
Record t : Type := mk {
  name : string;
  call : value -> result value
}.

(** [lambda v: v]. *)
Definition identity : t := mk "<lambda>" (fun v => Return v).

End Validator.

Module VarDef.

(** A variable definition, the dictionary [var_def]: each key may be
    missing. *)
Record t : Type := mk {
  type : option var_type_t;
  default : option value;
  validator : option Validator.t;
  allowed_values : option (list value)
}.

End VarDef.

(** [resolve_variable(var_name, var_def, provided_variable, blueprint_name)]. *)
Definition resolve_variable (var_name : string) (var_def : VarDef.t)
    (provided_variable : option Variable_) (blueprint_name : string)
    : result rvalue :=
  let! var_type :=
    match VarDef.type var_def with
    | Some t => Return t
    | None => Raise (VariableTypeRequired blueprint_name var_name)
    end in
  let! v :=
    match provided_variable with
    | Some pv =>
        if negb (resolved pv)
        then Raise (UnresolvedVariable blueprint_name pv)
        else Return (variable_value pv)
    | None =>
        match VarDef.default var_def with
        | Some d => Return d
        | None => Raise (MissingVariable blueprint_name (inl var_name))
        end
    end in
  let validator :=
    match VarDef.validator var_def with
    | Some f => f
    | None => Validator.identity
    end in
  let! v :=
    match Validator.call validator v with
    | inr v' => Return v'
    | inl exc =>
        if is_Exception exc
        then Raise (ValidatorError var_name (Validator.name validator) v exc)
        else Raise exc
    end in
  let! v := validate_variable_type var_name var_type v in
  let allowed_values := VarDef.allowed_values var_def in
  if negb (validate_allowed_values allowed_values v) then
    Raise (ValueError (invalid_value_message var_name blueprint_name v
                         allowed_values))
  else Return v.

(* ===================================================================== *)
(** * User-data templating ([parse_user_data]) *)
(* ===================================================================== *)

(** [string.Template] of the Python standard library, with its default
    delimiter and identifier pattern:
    [\$(?:(?P<escaped>\$)|(?P<named>id)|{(?P<braced>id)}|(?P<invalid>))]
    where [id] is [[_a-z][_a-z0-9]*], ASCII only, letter case ignored. *)
Module Template.

Definition is_letter (c : ascii) : bool :=
  let n := N_of_ascii c in
  (N.leb 97 n && N.leb n 122) || (N.leb 65 n && N.leb n 90).

Definition is_digit (c : ascii) : bool :=
  let n := N_of_ascii c in N.leb 48 n && N.leb n 57.

(** [[_a-z]], letter case ignored. *)
Definition is_id_start (c : ascii) : bool :=
  Ascii.eqb c "_" || is_letter c.

(** [[_a-z0-9]], letter case ignored. *)
Definition is_id_char (c : ascii) : bool :=
  is_id_start c || is_digit c.

(** The longest run of identifier characters at the head of [s]. *)
Fixpoint span_id (s : string) : string :=
  match s with
  | String c rest => if is_id_char c then String c (span_id rest) else ""
  | EmptyString => ""
  end.

(** [s[n:]]. *)
Fixpoint drop_string (n : nat) (s : string) : string :=
  match n, s with
  | S n', String _ rest => drop_string n' rest
  | _, _ => s
  end.

(** [s[:n]]. *)
Fixpoint take_string (n : nat) (s : string) : string :=
  match n, s with
  | S n', String c rest => String c (take_string n' rest)
  | _, _ => ""
  end.

(** The alternatives of the pattern. *)
Inductive token : Type :=
  | Escaped
  | Named (name : string)
  | Braced (name : string)
  | Invalid.

(** Which alternative matches right after a delimiter, [s] being the text
    that follows the [$]. *)
Definition match_after_delimiter (s : string) : token :=
  match s with
  | String c rest =>
      if Ascii.eqb c "$" then Escaped
      else if is_id_start c then Named (span_id s)
      else if Ascii.eqb c "{" then
        match rest with
        | String c' _ =>
            if is_id_start c' then
              let name := span_id rest in
              match drop_string (String.length name) rest with
              | String c'' _ =>
                  if Ascii.eqb c'' "}" then Braced name else Invalid
              | EmptyString => Invalid
              end
            else Invalid
        | EmptyString => Invalid
        end
      else Invalid
  | EmptyString => Invalid
  end.

(** The characters the pattern consumed after the delimiter. *)
Definition token_length (t : token) : nat :=
  match t with
  | Escaped => 1
  | Named name => String.length name
  | Braced name => String.length name + 2
  | Invalid => 0
  end.

(** A line boundary of [str.splitlines] (the ASCII ones; a carriage return
    followed by a line feed is one boundary and is handled apart). *)
Definition is_line_break (c : ascii) : bool :=
  let n := N_of_ascii c in
  N.eqb n 10 || N.eqb n 11 || N.eqb n 12 || N.eqb n 13
  || N.eqb n 28 || N.eqb n 29 || N.eqb n 30.

(** [s.splitlines(keepends=True)], [cur] being the line read so far. *)
Fixpoint splitlines_go (cur : string) (s : string) : list string :=
  match s with
  | EmptyString => if String.eqb cur "" then [] else [cur]
  | String c rest =>
      if N.eqb (N_of_ascii c) 13 then
        match rest with
        | String c' rest' =>
            if N.eqb (N_of_ascii c') 10
            then (cur +:+ String c (String c' "")) :: splitlines_go "" rest'
            else (cur +:+ String c "") :: splitlines_go "" rest
        | EmptyString => [cur +:+ String c ""]
        end
      else if is_line_break c
      then (cur +:+ String c "") :: splitlines_go "" rest
      else splitlines_go (cur +:+ String c "") rest
  end.

Definition splitlines (s : string) : list string := splitlines_go "" s.

(** [Template._invalid]: the message of the [ValueError] for an invalid
    placeholder whose (empty) match starts at offset [i]. *)
Definition invalid_message (template : string) (i : nat) : string :=
  let lines := splitlines (take_string i template) in
  let '(colno, lineno) :=
    match lines with
    | [] => (1, 1)%nat
    | _ => ((i - String.length (join "" (removelast lines)))%nat,
            length lines)
    end in
  "Invalid placeholder in string: line " +:+ pretty lineno
    +:+ ", col " +:+ pretty colno.

(** The scan of [pattern.sub(convert, template)]: [s] is the text from
    offset [i] on, and [skip] counts the characters of [s] that belong to
    the match just replaced.  Matches are converted from left to right,
    so the first placeholder that fails decides the exception. *)
Fixpoint substitute_go (template : string) (mapping : gmap string value)
    (skip : nat) (i : nat) (s : string) : result string :=
  match s with
  | EmptyString => Return ""
  | String c rest =>
      match skip with
      | S skip' => substitute_go template mapping skip' (S i) rest
      | O =>
          if Ascii.eqb c "$" then
            let tok := match_after_delimiter rest in
            match tok with
            | Escaped =>
                let! r := substitute_go template mapping 1 (S i) rest in
                Return ("$" +:+ r)
            | Named name | Braced name =>
                match mapping !! name with
                | Some v =>
                    let! r := substitute_go template mapping
                                (token_length tok) (S i) rest in
                    Return (py_str v +:+ r)
                | None => Raise (KeyError name)
                end
            | Invalid => Raise (ValueError (invalid_message template (S i)))
            end
          else
            let! r := substitute_go template mapping 0 (S i) rest in
            Return (String c r)
      end
  end.

(** [Template(template).substitute(mapping)]. *)
Definition substitute (template : string) (mapping : gmap string value)
    : result string :=
  substitute_go template mapping 0 0 template.

End Template.

(** What [parse_user_data] puts in [variable_values] for a variable: the
    parameter value of a [CFNParameter], the value itself otherwise. *)
Definition user_data_value (v : rvalue) : value :=
  match v with
  | CFNParam p => CFNParameter.to_parameter_value p
  | Plain x => x
  end.

(** [parse_user_data(variables, raw_user_data, blueprint_name)]. *)
Definition parse_user_data (variables : gmap string rvalue)
    (raw_user_data : string) (blueprint_name : string) : result string :=
  let variable_values : gmap string value := user_data_value <$> variables in
  match Template.substitute raw_user_data variable_values with
  | inr res => Return res
  | inl (ValueError msg) => Raise (InvalidUserdataPlaceholder blueprint_name msg)
  | inl (KeyError k) => Raise (MissingVariable blueprint_name (inr (KeyError k)))
  | inl err => Raise err
  end.

(* ===================================================================== *)
(** * Hooks ([hooks/utils.py]) *)
(* ===================================================================== *)

Module Hooks.

(** What a hook handler returns: a mapping, or any other value. *)
Inductive hook_result : Type :=
  | RValue (v : value)
  | RMapping (m : gmap string value).

(** [bool(result)]: an empty mapping is false. *)
Definition truthy (r : hook_result) : bool :=
  match r with
  | RValue v => py_truthy v
  | RMapping m => negb (bool_decide (m = ∅))
  end.

(** [isinstance(result, collections.Mapping)]. *)
Definition is_Mapping (r : hook_result) : bool :=
  match r with RMapping _ => true | RValue _ => false end.

(** The run context, as far as hooks are concerned: the hook data. *)
Record Context_ : Type := mkContext {
  hook_data : gmap string hook_result
}.

(** Modelled from the spec: [Context.set_hook_data] is not among the
    sources; the result is merged into the shared run-scoped context data
    keyed by the data key, overwriting any prior value for that key. *)
Definition set_hook_data (key : string) (data : hook_result)
    (context : Context_) : Context_ :=
  mkContext (<[key := data]> (hook_data context)).

(** A hook of the configuration ([runway.cfngin.config.Hook]). *)
Record Hook : Type := mkHook {
  path : string;
  data_key : option string;
  required : bool;
  args : option (gmap string value);
  enabled : bool
}.

(** What the logger is told, in order. *)
Inductive level : Type := DEBUG | INFO | WARNING | ERROR.

Inductive log_record : Type :=
  | NoHooksDefined (stage : string)
  | ExecutingHooks (stage : string) (paths : string)
  | HookDisabled (path : string)
  | UnableToLoad (path : string) (exc : exn)
  | MethodThrew (path : string) (exc : exn)
  | RequiredHookFailed (path : string) (result : hook_result)
  | NonRequiredHookFailed (path : string) (result : hook_result)
  | AddingResult (path : string) (data_key : string)
  | NoDataKey (path : string).

(** [LOGGER.exception] logs at the level of an error. *)
Definition level_of (r : log_record) : level :=
  match r with
  | NoHooksDefined _ | HookDisabled _ | AddingResult _ _ | NoDataKey _ => DEBUG
  | ExecutingHooks _ _ => INFO
  | NonRequiredHookFailed _ _ => WARNING
  | UnableToLoad _ _ | MethodThrew _ _ | RequiredHookFailed _ _ => ERROR
  end.

(** The state the hooks run in: the log and the run context. *)
Record state : Type := mkState {
  log : list log_record;
  context : Context_
}.

Definition add_log (r : log_record) (st : state) : state :=
  mkState (log st ++ [r]) (context st).

Section handle_hooks.

Context {Provider : Type}.

(** A handler, called as [method(context=context, provider=provider,
    **kwargs)]: it returns or raises, and may change the context. *)
Definition handler : Type :=
  Context_ -> Provider -> gmap string value ->
  result hook_result * Context_.

(** [runway.util.load_object_from_string]. *)
Variable load_object_from_string : string -> result handler.

(** [bool(data_key)]. *)
Definition data_key_set (k : option string) : option string :=
  match k with
  | Some s => if String.eqb s "" then None else Some s
  | None => None
  end.

(** [hook.args or {}]. *)
Definition kwargs_of (hook : Hook) : gmap string value :=
  match args hook with Some a => a | None => ∅ end.

(** The body of [for hook in hooks]; [Return tt] goes on with the next
    hook. *)
Definition run_hook (provider : Provider) (hook : Hook) (st : state)
    : result unit * state :=
  let kwargs := kwargs_of hook in
  if negb (enabled hook) then
    (Return tt, add_log (HookDisabled (path hook)) st)
  else
    match load_object_from_string (path hook) with
    | inl exc =>
        match exc with
        | AttributeError _ | ImportError _ =>
            let st := add_log (UnableToLoad (path hook) exc) st in
            if required hook then (Raise exc, st) else (Return tt, st)
        | _ => (Raise exc, st)
        end
    | inr method =>
        match method (context st) provider kwargs with
        | (inl exc, ctx) =>
            let st := mkState (log st) ctx in
            if is_Exception exc then
              let st := add_log (MethodThrew (path hook) exc) st in
              if required hook then (Raise exc, st) else (Return tt, st)
            else (Raise exc, st)
        | (inr result, ctx) =>
            let st := mkState (log st) ctx in
            if negb (truthy result) then
              if required hook then
                (Raise (SystemExit 1),
                 add_log (RequiredHookFailed (path hook) result) st)
              else
                (Return tt,
                 add_log (NonRequiredHookFailed (path hook) result) st)
            else if is_Mapping result then
              match data_key_set (data_key hook) with
              | Some k =>
                  let st := add_log (AddingResult (path hook) k) st in
                  (Return tt,
                   mkState (log st) (set_hook_data k result (context st)))
              | None => (Return tt, add_log (NoDataKey (path hook)) st)
              end
            else (Return tt, st)
        end
    end.

(** The loop [for hook in hooks]. *)
Fixpoint run_hooks (provider : Provider) (hooks : list Hook) (st : state)
    : result unit * state :=
  match hooks with
  | [] => (Return tt, st)
  | hook :: rest =>
      match run_hook provider hook st with
      | (inr _, st') => run_hooks provider rest st'
      | (inl exc, st') => (Raise exc, st')
      end
  end.

(** [handle_hooks(stage, hooks, provider, context)].  A [Hook] always has
    its [path], so collecting [hook_paths] cannot fail. *)
Definition handle_hooks (stage : string) (hooks : list Hook)
    (provider : Provider) (st : state) : result unit * state :=
  match hooks with
  | [] => (Return tt, add_log (NoHooksDefined stage) st)
  | _ =>
      let hook_paths := map path hooks in
      let st := add_log (ExecutingHooks stage (join ", " hook_paths)) st in
      run_hooks provider hooks st
  end.

End handle_hooks.

End Hooks.

(* ===================================================================== *)
(** * The diff action ([actions/diff.py], [Action._diff_stack]) *)
(* ===================================================================== *)

Module DiffAction.

(** The statuses [_diff_stack] returns ([runway.cfngin.status]). *)
Inductive Status : Type :=
  | COMPLETE
  | INTERRUPTED
  | NotSubmittedStatus
  | NotUpdatedStatus.

Inductive log_record : Type :=
  | NoChanges (fqn : string).

Section diff_stack.

Context {Stack Provider Tags Parameters TemplateBody Outputs RunContext : Type}.

(** What [_diff_stack] calls and does not define: the build action, the
    stack, the provider.  Each call that can raise returns a [result]. *)
Record collaborators : Type := mkCollaborators {
  cancel_wait : bool;
  should_submit : Stack -> bool;
  should_update : Stack -> bool;
  build_provider : Stack -> result Provider;
  build_stack_tags : Stack -> result Tags;
  stack_resolve : Stack -> RunContext -> Provider -> result Stack;
  build_parameters : Stack -> result Parameters;
  template : Stack -> result TemplateBody;
  get_stack_changes :
    Provider -> Stack -> TemplateBody -> Parameters -> Tags -> result Outputs;
  set_outputs : Stack -> Outputs -> Stack;
  fqn : Stack -> string
}.

(** The state: the stack object (resolved and given outputs in place) and
    the log. *)
Definition state : Type := Stack * list log_record.

(** [Action._diff_stack(stack)]. *)
Definition _diff_stack (self : collaborators) (context : RunContext)
    (stack : Stack) (log : list log_record) : result Status * state :=
  if cancel_wait self then (Return INTERRUPTED, (stack, log))
  else if negb (should_submit self stack)
  then (Return NotSubmittedStatus, (stack, log))
  else if negb (should_update self stack)
  then (Return NotUpdatedStatus, (stack, log))
  else
    match build_provider self stack with
    | inl exc => (Raise exc, (stack, log))
    | inr provider =>
    match build_stack_tags self stack with
    | inl exc => (Raise exc, (stack, log))
    | inr tags =>
    match stack_resolve self stack context provider with
    | inl exc => (Raise exc, (stack, log))
    | inr stack =>
    match build_parameters self stack with
    | inl exc => (Raise exc, (stack, log))
    | inr parameters =>
        (* the [try] block *)
        let attempt : result Stack :=
          let! body := template self stack in
          let! outputs :=
            get_stack_changes self provider stack body parameters tags in
          Return (set_outputs self stack outputs) in
        match attempt with
        | inr stack' => (Return COMPLETE, (stack', log))
        | inl StackDidNotChange =>
            (Return COMPLETE, (stack, log ++ [NoChanges (fqn self stack)]))
        | inl exc => (Raise exc, (stack, log))
        end
    end end end end.

End diff_stack.

End DiffAction.

(* ===================================================================== *)
(** * The blueprint and its variables ([blueprints/base.py], [Blueprint]) *)
(* ===================================================================== *)

Module Blueprint.

(** The attributes of a CloudFormation parameter: a copy of the definition
    with the [CFNType] replaced by its parameter type. *)
Record cfn_attrs : Type := mk_cfn_attrs {
  type : string;
  default : option value;
  validator : option Validator.t;
  allowed_values : option (list value)
}.

(** A blueprint, as far as its variables go: its name, the class attribute
    [VARIABLES] (a dictionary, in the order of its keys) and
    [self.resolved_variables] ([None] until [resolve_variables] runs). *)
Record t : Type := mk {
  name : string;
  VARIABLES : list (string * VarDef.t);
  resolved_variables : option (gmap string rvalue)
}.

(** [defined_variables]: a copy of [VARIABLES]. *)
Definition defined_variables (self : t) : list (string * VarDef.t) :=
  VARIABLES self.

(** [get_variables]. *)
Definition get_variables (self : t) : result (gmap string rvalue) :=
  match resolved_variables self with
  | None => Raise (PyException "UnresolvedVariables" (name self))
  | Some variables => Return variables
  end.

(** [dict((var.name, var) for var in provided_variables)]: a later variable
    replaces an earlier one of the same name. *)
Definition variable_dict (provided_variables : list Variable_)
    : gmap string Variable_ :=
  foldl (λ m var, <[variable_name var := var]> m) ∅ provided_variables.

(** The loop of [resolve_variables] over the definitions; the dictionary
    [self.resolved_variables] is filled as it goes, and keeps what it has
    when a resolution raises. *)
Fixpoint resolve_loop (blueprint_name : string)
    (variables : gmap string Variable_) (items : list (string * VarDef.t))
    (resolved : gmap string rvalue) : result unit * gmap string rvalue :=
  match items with
  | [] => (Return tt, resolved)
  | (var_name, var_def) :: rest =>
      match resolve_variable var_name var_def (variables !! var_name)
              blueprint_name with
      | inl exc => (Raise exc, resolved)
      | inr v =>
          resolve_loop blueprint_name variables rest (<[var_name := v]> resolved)
      end
  end.

(** [resolve_variables(provided_variables)]. *)
Definition resolve_variables (self : t) (provided_variables : list Variable_)
    : result unit * t :=
  let defined := defined_variables self in
  let variables := variable_dict provided_variables in
  let '(r, resolved) := resolve_loop (name self) variables defined ∅ in
  (r, mk (name self) (VARIABLES self) (Some resolved)).

(** [get_parameter_definitions]. *)
Definition get_parameter_definitions (self : t) : gmap string cfn_attrs :=
  foldl (λ output '(var_name, attrs),
           match VarDef.type attrs with
           | Some (CFNType parameter_type) =>
               <[var_name := mk_cfn_attrs parameter_type
                               (VarDef.default attrs) (VarDef.validator attrs)
                               (VarDef.allowed_values attrs)]> output
           | _ => output
           end)
        ∅ (defined_variables self).

(** [get_parameter_values]: a value without [to_parameter_value] is passed
    over. *)
Definition get_parameter_values (self : t) : result (gmap string value) :=
  let! variables := get_variables self in
  Return (omap (λ v, match v with
                     | CFNParam p => Some (CFNParameter.to_parameter_value p)
                     | Plain _ => None
                     end) variables).

(** [read_user_data], given the text at the path. *)
Definition read_user_data (self : t) (raw_user_data : string) : result string :=
  let! variables := get_variables self in
  parse_user_data variables raw_user_data (name self).

End Blueprint.

(* ===================================================================== *)
(** * Vocabulary of the statements *)
(* ===================================================================== *)

(** ** The diff engine *)

(** The entries the three loops append, before the sort. *)
Definition added_entry (new_dict : gmap string value) (k : string) : DictValue.t :=
  DictValue.mk k VNone (new_dict !!! k).
Definition removed_entry (old_dict : gmap string value) (k : string) : DictValue.t :=
  DictValue.mk k (old_dict !!! k) VNone.
Definition common_entry (old_dict new_dict : gmap string value)
    (k : string) : DictValue.t :=
  DictValue.mk k (old_dict !!! k) (new_dict !!! k).

(** Whether the loop over the common keys counts the key as a change. *)
Definition str_differs (old_dict new_dict : gmap string value)
    (k : string) : bool :=
  negb (String.eqb (py_str (old_dict !!! k)) (py_str (new_dict !!! k))).

Definition unsorted_output (old_dict new_dict : gmap string value) : list DictValue.t :=
  (added_entry new_dict <$> elements (dom new_dict ∖ dom old_dict))
  ++ (removed_entry old_dict <$> elements (dom old_dict ∖ dom new_dict))
  ++ (common_entry old_dict new_dict
        <$> elements (dom old_dict ∩ dom new_dict)).

(** Whether an entry stands for a change as the loops count them: its key
    is in one mapping only, or the two values print differently. *)
Definition counted (old_dict new_dict : gmap string value)
    (d : DictValue.t) : bool :=
  match old_dict !! DictValue.key d, new_dict !! DictValue.key d with
  | Some a, Some b => negb (String.eqb (py_str a) (py_str b))
  | _, _ => true
  end.

(** ** Variable resolution *)

(** A definition with its [allowed_values] key taken out. *)
Definition without_allowed_values (var_def : VarDef.t) : VarDef.t :=
  VarDef.mk (VarDef.type var_def) (VarDef.default var_def)
            (VarDef.validator var_def) None.

(** The validator [resolve_variable] applies. *)
Definition validator_of (var_def : VarDef.t) : Validator.t :=
  match VarDef.validator var_def with
  | Some f => f
  | None => Validator.identity
  end.

(** The value resolution starts from: the provided variable's, which has to
    be resolved, or else the default. *)
Definition input_value (var_def : VarDef.t) (pv : option Variable_)
    : option value :=
  match pv with
  | Some p => if resolved p then Some (variable_value p) else None
  | None => VarDef.default var_def
  end.

(** ** User-data templates *)

(** The text a variable is replaced by: the printed form of its value,
    and for a [CFNParameter] the printed form of the value it holds. *)
Definition variable_text (v : rvalue) : string :=
  match v with
  | Plain x => py_str x
  | CFNParam p => py_str (CFNParameter.val p)
  end.

(** A piece of a template: text without a delimiter, the escape [$$], a
    placeholder [${name}], or a placeholder [$name] without braces. *)
Inductive segment : Type :=
  | Literal (text : string)
  | Escape
  | Placeholder (name : string)
  | Unbraced (name : string).

Fixpoint all_id_chars (s : string) : bool :=
  match s with
  | EmptyString => true
  | String c s' => Template.is_id_char c && all_id_chars s'
  end.

(** An identifier: [[_a-z][_a-z0-9]*], letter case ignored. *)
Definition valid_name (n : string) : bool :=
  match n with
  | String c _ => Template.is_id_start c && all_id_chars n
  | EmptyString => false
  end.

(** Whether [s] starts with an identifier character. *)
Definition starts_with_id_char (s : string) : bool :=
  match s with
  | String c _ => Template.is_id_char c
  | EmptyString => false
  end.

(** The template text the pieces spell. *)
Fixpoint render (segs : list segment) : string :=
  match segs with
  | [] => ""
  | Literal text :: rest => text +:+ render rest
  | Escape :: rest => "$$" +:+ render rest
  | Placeholder name :: rest => "${" +:+ name +:+ "}" +:+ render rest
  | Unbraced name :: rest => "$" +:+ name +:+ render rest
  end.

(** The pieces, followed by the text [after], are read as they are written:
    text holds no delimiter, names are identifiers, and a name without
    braces ends where it is written to end. *)
Fixpoint valid_segments (segs : list segment) (after : string) : bool :=
  match segs with
  | [] => true
  | Literal text :: rest =>
      negb (string_contains "$" text) && valid_segments rest after
  | Escape :: rest => valid_segments rest after
  | Placeholder name :: rest => valid_name name && valid_segments rest after
  | Unbraced name :: rest =>
      valid_name name
      && negb (starts_with_id_char (render rest +:+ after))
      && valid_segments rest after
  end.

(** The text with every escape replaced by one [$] and every placeholder
    by the text of its variable. *)
Fixpoint expand (variables : gmap string rvalue) (segs : list segment)
    : string :=
  match segs with
  | [] => ""
  | Literal text :: rest => text +:+ expand variables rest
  | Escape :: rest => "$" +:+ expand variables rest
  | Placeholder name :: rest | Unbraced name :: rest =>
      from_option variable_text "" (variables !! name)
      +:+ expand variables rest
  end.

(** The piece is no placeholder, or a placeholder that names a variable. *)
Definition segment_defined (variables : gmap string rvalue) (seg : segment)
    : bool :=
  match seg with
  | Literal _ | Escape => true
  | Placeholder name | Unbraced name =>
      bool_decide (is_Some (variables !! name))
  end.

(** How a template ends after pieces that are all fine: there, or at a
    placeholder (with braces or without) that names no variable, or at a
    delimiter that starts no token; the text after that is not read. *)
Inductive ending : Type :=
  | Complete
  | Undefined (braced : bool) (name : string) (rest : string)
  | InvalidToken (rest : string).

Definition render_ending (e : ending) : string :=
  match e with
  | Complete => ""
  | Undefined true name rest => "${" +:+ name +:+ "}" +:+ rest
  | Undefined false name rest => "$" +:+ name +:+ rest
  | InvalidToken rest => "$" +:+ rest
  end.

(** After the identifier characters at the head of [s] comes a closing
    brace. *)
Fixpoint closes_brace (s : string) : bool :=
  match s with
  | String c s' =>
      if Template.is_id_char c then closes_brace s' else Ascii.eqb c "}"
  | EmptyString => false
  end.

(** What follows a delimiter starts no token: it is not a second [$], not
    an identifier, and not an identifier in braces. *)
Definition invalid_token (rest : string) : bool :=
  match rest with
  | EmptyString => true
  | String c rest' =>
      negb (Ascii.eqb c "$")
      && negb (Template.is_id_start c)
      && negb (Ascii.eqb c "{"
               && match rest' with
                  | String c' _ => Template.is_id_start c'
                  | EmptyString => false
                  end
               && closes_brace rest')
  end.

Definition valid_ending (variables : gmap string rvalue) (e : ending) : bool :=
  match e with
  | Complete => true
  | Undefined braced name rest =>
      valid_name name
      && bool_decide (variables !! name = None)
      && (braced || negb (starts_with_id_char rest))
  | InvalidToken rest => invalid_token rest
  end.

(** The pieces [segs] and the ending [e] are a reading of the text [raw]:
    they spell it, the pieces are read as they are written and name
    variables only, and the ending is what it says. *)
Definition reading (variables : gmap string rvalue) (raw : string)
    (segs : list segment) (e : ending) : Prop :=
  raw = render segs +:+ render_ending e
  ∧ valid_segments segs (render_ending e) = true
  ∧ forallb (segment_defined variables) segs = true
  ∧ valid_ending variables e = true.

(** What templating the pieces and the ending gives. *)
Definition outcome (variables : gmap string rvalue) (blueprint_name : string)
    (segs : list segment) (e : ending) : result string :=
  match e with
  | Complete => Return (expand variables segs)
  | Undefined _ name _ =>
      Raise (MissingVariable blueprint_name (inr (KeyError name)))
  | InvalidToken _ =>
      Raise (InvalidUserdataPlaceholder blueprint_name
               (Template.invalid_message (render segs +:+ render_ending e)
                  (S (String.length (render segs)))))
  end.

(** ** Hooks *)

(** The state handed to the first hook: the log has the line that lists the
    hooks. *)
Definition hooks_start (stage : string) (hooks : list Hooks.Hook)
    (st : Hooks.state) : Hooks.state :=
  Hooks.add_log
    (Hooks.ExecutingHooks stage (join ", " (map Hooks.path hooks))) st.

(** The state after the handler of a hook has run, with one more line in
    the log. *)
Definition after_handler (st : Hooks.state) (ctx : Hooks.Context_)
    (r : Hooks.log_record) : Hooks.state :=
  Hooks.add_log r (Hooks.mkState (Hooks.log st) ctx).

(** A handler that reports failure by returning [False], one that returns
    an empty mapping, and the loaders that find them. *)
Definition returns_False : @Hooks.handler unit :=
  λ ctx _ _, (Return (Hooks.RValue (VBool false)), ctx).
Definition returns_empty_mapping : @Hooks.handler unit :=
  λ ctx _ _, (Return (Hooks.RMapping ∅), ctx).
Definition empty_state : Hooks.state := Hooks.mkState [] (Hooks.mkContext ∅).

(** A handler that raises an [Exception], and one that leaves the
    interpreter with [sys.exit(2)]. *)
Definition raises_error : @Hooks.handler unit :=
  λ ctx _ _, (Raise (PyException "RuntimeError" "boom"), ctx).
Definition exits : @Hooks.handler unit :=
  λ ctx _ _, (Raise (SystemExit 2), ctx).

(** ** The diff action *)

(** A build action whose provider finds nothing to change. *)
Definition unchanged_stack : @DiffAction.collaborators string unit unit unit
                               unit unit unit :=
  DiffAction.mkCollaborators false (λ _, true) (λ _, true)
    (λ _, Return tt) (λ _, Return tt) (λ stack _ _, Return stack)
    (λ _, Return tt) (λ _, Return tt)
    (λ _ _ _ _ _, Raise StackDidNotChange)
    (λ stack _, stack) (λ stack, "prod-" +:+ stack).

(** ** More vocabulary for the diff engine *)

(** The entry of a key: what the two mappings hold for it, [None] for a
    missing key. *)
Definition entry_for (old_dict new_dict : gmap string value) (k : string)
    : DictValue.t :=
  DictValue.mk k (default VNone (old_dict !! k)) (default VNone (new_dict !! k)).

(** The two mappings have the same keys, and the two values of every key
    print alike. *)
Definition prints_alike (old_dict new_dict : gmap string value) : Prop :=
  dom old_dict = dom new_dict
  ∧ ∀ k a b, old_dict !! k = Some a → new_dict !! k = Some b →
             py_str a = py_str b.

(** An entry read the other way round. *)
Definition swap_entry (d : DictValue.t) : DictValue.t :=
  DictValue.mk (DictValue.key d) (DictValue.new_value d) (DictValue.old_value d).

(** ** Examples for variable resolution *)

(** A validator that accepts positive integers only. *)
Definition positive_validator : Validator.t :=
  Validator.mk "positive"
    (λ v, match v with
          | VInt n => if (0 <? n)%Z then Return v
                      else Raise (ValueError "not positive")
          | _ => Raise (ValueError "not an integer")
          end).

(** A typed resource whose [create] takes a text and fails on anything
    else. *)
Definition bucket_type : var_type_t :=
  TroposphereType "Bucket"
    (λ v, match v with
          | VStr s => Return (VObject 1 ["Bucket"; "AWSObject"] ("<Bucket " +:+ s +:+ ">"))
          | _ => Raise (PyException "TypeError" "expected a name")
          end).

(** ** Examples for the blueprint *)

(** A blueprint with a plain variable and a CloudFormation parameter. *)
Definition vpc_blueprint : Blueprint.t :=
  Blueprint.mk "vpc"
    [("env", VarDef.mk (Some (PyType TStr)) None None None);
     ("size", VarDef.mk (Some (CFNType "Number")) (Some (VInt 1)) None None)]
    None.

(** ** More on the user data *)

(** The text [s] with every [$] doubled. *)
Fixpoint escape_delimiters (s : string) : string :=
  match s with
  | EmptyString => ""
  | String c rest =>
      if Ascii.eqb c "$"
      then String "$" (String "$" (escape_delimiters rest))
      else String c (escape_delimiters rest)
  end.

(** ** More vocabulary for the hooks *)

(** The exceptions [handle_hooks] catches around the loading of a handler. *)
Definition is_load_error (e : exn) : bool :=
  match e with
  | AttributeError _ | ImportError _ => true
  | _ => false
  end.

(** The data keys under which the enabled hooks of a list store their
    results. *)
Definition data_keys (hooks : list Hooks.Hook) : list string :=
  omap (λ hook, if Hooks.enabled hook
                then Hooks.data_key_set (Hooks.data_key hook)
                else None) hooks.

(** A handler that is interrupted from the keyboard. *)
Definition interrupted : @Hooks.handler unit :=
  λ ctx _ _, (Raise KeyboardInterrupt, ctx).

(** A handler that returns a mapping with one entry. *)
Definition returns_mapping : @Hooks.handler unit :=
  λ ctx _ _, (Return (Hooks.RMapping {[ "id" := VStr "vpc-1" ]}), ctx).

(** ** More vocabulary for the diff action *)

(** A build action whose provider reports the outputs of the change. *)
Definition changed_stack : @DiffAction.collaborators string unit unit unit
                             unit (list string) unit :=
  DiffAction.mkCollaborators false (λ _, true) (λ _, true)
    (λ _, Return tt) (λ _, Return tt) (λ stack _ _, Return stack)
    (λ _, Return tt) (λ _, Return tt)
    (λ _ _ _ _ _, Return ["VpcId"])
    (λ stack outputs, stack +:+ ":" +:+ join "," outputs)
    (λ stack, "prod-" +:+ stack).

(** A build action that is being cancelled. *)
Definition cancelled_stack : @DiffAction.collaborators string unit unit unit
                               unit unit unit :=
  DiffAction.mkCollaborators true (λ _, true) (λ _, true)
    (λ _, Return tt) (λ _, Return tt) (λ stack _ _, Return stack)
    (λ _, Return tt) (λ _, Return tt)
    (λ _ _ _ _ _, Raise StackDidNotChange)
    (λ stack _, stack) (λ stack, "prod-" +:+ stack).

(* ===================================================================== *)
(** * Commands and Docker options ([hooks/utils.py]) *)
(* ===================================================================== *)

(** The name of a type, as the message of a [TypeError] prints it. *)
Definition type_name (t : pytype) : string :=
  match t with
  | TObject => "object"
  | TNoneType => "NoneType"
  | TBool => "bool"
  | TInt => "int"
  | TStr => "str"
  | TList => "list"
  | TClass name => name
  end.

(** [len(v)]: text and lists have a length, the other values raise
    [TypeError]. *)
Definition py_len (v : value) : result Z :=
  match v with
  | VStr s => Return (Z.of_nat (String.length s))
  | VList l => Return (Z.of_nat (length l))
  | _ => Raise (PyException "TypeError"
                  ("object of type '" +:+ type_name (type_of v)
                   +:+ "' has no len()"))
  end.

Module Commands.

(** The test of the comprehension: [cmd and len(cmd) > 0], as a truth
    value. *)
Definition kept (cmd : value) : result bool :=
  if py_truthy cmd then
    let! n := py_len cmd in Return (0 <? n)
  else Return false.

(** [filter_commands(commands)]. *)
Fixpoint filter_commands (commands : list value) : result (list value) :=
  match commands with
  | [] => Return []
  | cmd :: rest =>
      let! keep := kept cmd in
      let! cmds := filter_commands rest in
      Return (if keep : bool then cmd :: cmds else cmds)
  end.

Section merge_commands.

(** [shlex.quote]. *)
Variable shlex_quote : value -> result string.

(** [[shlex.quote(cmd) for cmd in cmds]]. *)
Fixpoint quote_all (cmds : list value) : result (list string) :=
  match cmds with
  | [] => Return []
  | cmd :: rest =>
      let! q := shlex_quote cmd in
      let! qs := quote_all rest in
      Return (q :: qs)
  end.

(** [merge_commands(commands)]. *)
Definition merge_commands (commands : list value) : result value :=
  let! cmds := filter_commands commands in
  match cmds with
  | [] => Raise (ValueError "Expected at least one non-empty command")
  | [cmd] => Return cmd
  | _ =>
      let! quoted := quote_all cmds in
      let script := join " && " quoted in
      Return (VList [VStr "/bin/sh"; VStr "-c"; VStr script])
  end.

End merge_commands.

End Commands.

Module Docker.

(** The attributes of a [Docker] object; [docker_file] is set only when a
    docker file is given. *)
Record t : Type := mk {
  runtime : value;
  dockerize_pip : value;
  docker_file : option value;
  image : value
}.

Section init.

(** [sys.platform]. *)
Variable sys_platform : string.

(** [Docker.__init__(dockerize_pip, runtime, docker_image, docker_file)]. *)
Definition init (dockerize_pip_arg runtime_arg docker_image docker_file_arg
    : value) : result t :=
  if negb (py_truthy runtime_arg) && negb (py_truthy docker_image) then
    Raise (ValueError "runtime is required when no docker image is specified")
  else
    let dockerize :=
      if py_eq dockerize_pip_arg (VStr "non-linux")
      then VBool (negb (String.eqb (lower sys_platform) "linux"))
      else dockerize_pip_arg in
    if py_truthy docker_image && py_truthy docker_file_arg then
      Raise (ValueError
               "You can provide a dockerImage or a dockerFile option, not both")
    else
      let file :=
        if py_truthy docker_file_arg then Some docker_file_arg else None in
      let default_image := "lambci/lambda:build-" +:+ py_str runtime_arg in
      Return (mk runtime_arg dockerize file
                (if py_truthy docker_image then docker_image
                 else VStr default_image)).

End init.

End Docker.

(** ** Vocabulary for the commands *)

(** What a command is: nothing, text, or a list. *)
Definition is_command (v : value) : bool :=
  match v with
  | VNone | VStr _ | VList _ => true
  | _ => false
  end.

(** [shlex.quote] for commands that need no quoting. *)
Definition quote_plain (v : value) : result string :=
  match v with
  | VStr s => Return s
  | _ => Raise (PyException "TypeError" "expected string or bytes-like object")
  end.

(* ===================================================================== *)
(** * Properties of the diff engine *)
(* ===================================================================== *)

Section diff_engine.

Implicit Types (old_dict new_dict : gmap string value) (d : DictValue.t).

Lemma foldl_added_step new_dict (acc : diff_acc) l :
  foldl (added_step new_dict) acc l
  = ((acc.1 + length l)%nat, acc.2 ++ (added_entry new_dict <$> l)).
Proof.
  revert acc. induction l as [|k l IH]; intros [c out]; simpl.
  - by rewrite Nat.add_0_r, app_nil_r.
  - rewrite IH. simpl. f_equal; [lia|]. by rewrite <- app_assoc.
Qed.

Lemma foldl_removed_step old_dict (acc : diff_acc) l :
  foldl (removed_step old_dict) acc l
  = ((acc.1 + length l)%nat, acc.2 ++ (removed_entry old_dict <$> l)).
Proof.
  revert acc. induction l as [|k l IH]; intros [c out]; simpl.
  - by rewrite Nat.add_0_r, app_nil_r.
  - rewrite IH. simpl. f_equal; [lia|]. by rewrite <- app_assoc.
Qed.

Lemma common_step_eq old_dict new_dict (acc : diff_acc) k :
  common_step old_dict new_dict acc k
  = ((acc.1 + (if str_differs old_dict new_dict k then 1 else 0))%nat,
     acc.2 ++ [common_entry old_dict new_dict k]).
Proof.
  unfold common_step, str_differs, common_entry.
  destruct (negb _); simpl; [done|]. by rewrite Nat.add_0_r.
Qed.

Lemma foldl_common_step old_dict new_dict (acc : diff_acc) l :
  foldl (common_step old_dict new_dict) acc l
  = ((acc.1 + length (filter (λ k, str_differs old_dict new_dict k = true) l))%nat,
     acc.2 ++ (common_entry old_dict new_dict <$> l)).
Proof.
  revert acc. induction l as [|k l IH]; intros acc.
  - simpl. rewrite Nat.add_0_r, app_nil_r. by destruct acc.
  - cbn [foldl]. rewrite IH, common_step_eq. cbn [fst snd fmap list_fmap].
    rewrite filter_cons, <- app_assoc. cbn [app].
    destruct (str_differs old_dict new_dict k) eqn:E.
    + rewrite decide_True by done. simpl. f_equal. lia.
    + rewrite decide_False by (by intros ?). f_equal. lia.
Qed.

(** [diff_dictionaries] without its loops. *)
Lemma diff_dictionaries_unfold old_dict new_dict :
  diff_dictionaries old_dict new_dict
  = ((size (dom new_dict ∖ dom old_dict)
      + size (dom old_dict ∖ dom new_dict)
      + length (filter (λ k, str_differs old_dict new_dict k = true)
                  (elements (dom old_dict ∩ dom new_dict))))%nat,
     merge_sort key_le (unsorted_output old_dict new_dict)).
Proof.
  unfold diff_dictionaries. cbv zeta.
  rewrite foldl_added_step, foldl_removed_step, foldl_common_step.
  simpl. unfold unsorted_output. rewrite <- app_assoc. done.
Qed.


Global Instance key_le_total : Total key_le.
Proof. intros a b. unfold key_le. apply (total String.le). Qed.

Global Instance key_le_trans : Transitive key_le.
Proof. intros a b c. unfold key_le. apply transitivity. Qed.

Lemma output_Permutation old_dict new_dict :
  (diff_dictionaries old_dict new_dict).2
  ≡ₚ unsorted_output old_dict new_dict.
Proof. rewrite diff_dictionaries_unfold. apply merge_sort_Permutation. Qed.

(** The keys of the entries, before the sort: the keys of the three sets
    in turn. *)
Lemma unsorted_output_keys old_dict new_dict :
  DictValue.key <$> unsorted_output old_dict new_dict
  = elements (dom new_dict ∖ dom old_dict)
    ++ elements (dom old_dict ∖ dom new_dict)
    ++ elements (dom old_dict ∩ dom new_dict).
Proof.
  unfold unsorted_output. rewrite !fmap_app, <- !list_fmap_compose.
  rewrite !(list_fmap_ext _ id); [by rewrite !list_fmap_id|done..].
Qed.

Lemma unsorted_output_keys_NoDup old_dict new_dict :
  NoDup (DictValue.key <$> unsorted_output old_dict new_dict).
Proof.
  rewrite unsorted_output_keys.
  apply NoDup_app. split; [apply NoDup_elements|]. split.
  - intros k Hk [Hk'|Hk']%elem_of_app; apply elem_of_elements in Hk, Hk';
      set_solver.
  - apply NoDup_app. split; [apply NoDup_elements|].
    split; [|apply NoDup_elements].
    intros k Hk Hk'; apply elem_of_elements in Hk, Hk'. set_solver.
Qed.

Lemma unsorted_output_keys_elem_of old_dict new_dict k :
  k ∈ DictValue.key <$> unsorted_output old_dict new_dict
  ↔ k ∈ dom old_dict ∪ dom new_dict.
Proof.
  rewrite unsorted_output_keys, !elem_of_app, !elem_of_elements.
  destruct (decide (k ∈ dom old_dict)), (decide (k ∈ dom new_dict));
    set_solver.
Qed.

Lemma length_filter_fmap_ext {A B} (f : A → B) (P : B → Prop) (Q : A → Prop)
    `{∀ x, Decision (P x)} `{∀ x, Decision (Q x)} (l : list A) :
  (∀ x, x ∈ l → (P (f x) ↔ Q x)) →
  length (filter P (f <$> l)) = length (filter Q l).
Proof.
  induction l as [|x l IH]; intros Hl; [done|].
  rewrite fmap_cons, !filter_cons.
  pose proof (Hl x (list_elem_of_here _ _)) as Hx.
  assert (length (filter P (f <$> l)) = length (filter Q l)) as IH'
    by (apply IH; intros y Hy; apply Hl; by right).
  destruct (decide (P (f x))), (decide (Q x)); simpl; rewrite ?IH'; tauto || done.
Qed.

Lemma length_filter_True {A} (l : list A) :
  length (filter (λ _, True) l) = length l.
Proof.
  induction l as [|x l IH]; [done|].
  rewrite filter_cons_True by done. simpl. by rewrite IH.
Qed.

Lemma count_unsorted old_dict new_dict :
  length (filter (λ d, counted old_dict new_dict d = true)
            (unsorted_output old_dict new_dict))
  = (size (dom new_dict ∖ dom old_dict)
     + size (dom old_dict ∖ dom new_dict)
     + length (filter (λ k, str_differs old_dict new_dict k = true)
                 (elements (dom old_dict ∩ dom new_dict))))%nat.
Proof.
  unfold unsorted_output. rewrite !filter_app, !length_app, Nat.add_assoc.
  f_equal; [f_equal|].
  - rewrite (length_filter_fmap_ext _ _ (λ _, True)).
    + by rewrite length_filter_True.
    + intros k Hk%elem_of_elements. unfold counted, added_entry; simpl.
      assert (old_dict !! k = None) as ->
        by (apply not_elem_of_dom; set_solver).
      done.
  - rewrite (length_filter_fmap_ext _ _ (λ _, True)).
    + by rewrite length_filter_True.
    + intros k Hk%elem_of_elements. unfold counted, removed_entry; simpl.
      assert (new_dict !! k = None) as ->
        by (apply not_elem_of_dom; set_solver).
      by destruct (old_dict !! k).
  - apply length_filter_fmap_ext.
    intros k Hk%elem_of_elements. unfold counted, common_entry; simpl.
    apply elem_of_intersection in Hk as [[a Ha]%elem_of_dom [b Hb]%elem_of_dom].
    rewrite Ha, Hb. unfold str_differs.
    by rewrite (lookup_total_correct _ _ _ Ha), (lookup_total_correct _ _ _ Hb).
Qed.

Lemma filter_none {A} (P : A → Prop) `{∀ x, Decision (P x)} (l : list A) :
  (∀ x, x ∈ l → ¬ P x) → filter P l = [].
Proof.
  induction l as [|x l IH]; intros Hl; [done|].
  rewrite filter_cons_False by (apply Hl; by left).
  apply IH. intros y Hy. apply Hl. by right.
Qed.

(** What an entry of the output holds: the values of its key in the two
    mappings, [None] standing for a missing key. *)
Lemma output_entry_values old_dict new_dict d :
  d ∈ (diff_dictionaries old_dict new_dict).2 →
  DictValue.key d ∈ dom old_dict ∪ dom new_dict
  ∧ DictValue.old_value d = default VNone (old_dict !! DictValue.key d)
  ∧ DictValue.new_value d = default VNone (new_dict !! DictValue.key d).
Proof.
  rewrite output_Permutation. unfold unsorted_output.
  rewrite !elem_of_app, !list_elem_of_fmap.
  intros [(k & -> & Hk)|[(k & -> & Hk)|(k & -> & Hk)]];
    apply elem_of_elements in Hk; simpl.
  - apply elem_of_difference in Hk as [[b Hb]%elem_of_dom Ho%not_elem_of_dom].
    rewrite Ho, Hb, (lookup_total_correct _ _ _ Hb).
    split; [apply elem_of_union_r, elem_of_dom; eauto|done].
  - apply elem_of_difference in Hk as [[a Ha]%elem_of_dom Hn%not_elem_of_dom].
    rewrite Hn, Ha, (lookup_total_correct _ _ _ Ha).
    split; [apply elem_of_union_l, elem_of_dom; eauto|done].
  - apply elem_of_intersection in Hk as [[a Ha]%elem_of_dom [b Hb]%elem_of_dom].
    rewrite Ha, Hb, (lookup_total_correct _ _ _ Ha),
      (lookup_total_correct _ _ _ Hb).
    split; [apply elem_of_union_l, elem_of_dom; eauto|done].
Qed.

End diff_engine.

(** C1.  The code at [old = {"a": 1}], [new = {"a": "1"}].  The two values
    print alike and the loop over the common keys counts no change; yet the
    status of the entry is [MODIFIED], and the entry is rendered as a
    removal and an addition of the same text.  At [old = {}],
    [new = {"b": None}] the key is in the new mapping only and is counted as
    a change, and the status of its entry is [UNMODIFIED]. *)
Theorem diff_classification_not_by_str :
  diff_dictionaries {[ "a" := VInt 1 ]} {[ "a" := VStr "1" ]}
  = (0%nat, [DictValue.mk "a" (VInt 1) (VStr "1")])
  ∧ py_str (VInt 1) = py_str (VStr "1")
  ∧ DictValue.status (DictValue.mk "a" (VInt 1) (VStr "1")) = DictValue.MODIFIED
  ∧ DictValue.changes (DictValue.mk "a" (VInt 1) (VStr "1"))
    = ["-a = 1"; "+a = 1"]
  ∧ diff_dictionaries ∅ {[ "b" := VNone ]}
    = (1%nat, [DictValue.mk "b" VNone VNone])
  ∧ DictValue.status (DictValue.mk "b" VNone VNone) = DictValue.UNMODIFIED.
Proof. vm_compute. done. Qed.

(** The count of [diff_dictionaries], read off its list. *)
Lemma diff_dictionaries_count (old_dict new_dict : gmap string value) :
  (diff_dictionaries old_dict new_dict).1
  = length (filter (λ d, counted old_dict new_dict d = true)
              (diff_dictionaries old_dict new_dict).2).
Proof.
  rewrite output_Permutation, count_unsorted.
  by rewrite diff_dictionaries_unfold.
Qed.

(** The keys of the list of [diff_dictionaries]. *)
Lemma diff_dictionaries_keys (old_dict new_dict : gmap string value) k :
  k ∈ DictValue.key <$> (diff_dictionaries old_dict new_dict).2
  ↔ k ∈ dom old_dict ∪ dom new_dict.
Proof. rewrite output_Permutation. apply unsorted_output_keys_elem_of. Qed.

(** C2.  The code at [old = {"a": 1}], [new = {"a": "1"}]: the count is 0,
    and the one entry of the list is [MODIFIED], so one entry of the list
    is not [UNMODIFIED]. *)
Theorem diff_dictionaries_count_not_by_status :
  (diff_dictionaries {[ "a" := VInt 1 ]} {[ "a" := VStr "1" ]}).1 = 0%nat
  ∧ DictValue.status <$>
      (diff_dictionaries {[ "a" := VInt 1 ]} {[ "a" := VStr "1" ]}).2
    = [DictValue.MODIFIED]
  ∧ length (filter (λ d, DictValue.status d ≠ DictValue.UNMODIFIED)
              (diff_dictionaries {[ "a" := VInt 1 ]} {[ "a" := VStr "1" ]}).2)
    = 1%nat.
Proof. vm_compute. done. Qed.

(* ===================================================================== *)
(** * Properties of variable resolution *)
(* ===================================================================== *)

Ltac resolve_cases :=
  repeat (simplify_eq/=; try done;
          match goal with
          | |- context [match ?x with _ => _ end] => destruct x eqn:?
          | H : context [match ?x with _ => _ end] |- _ => destruct x eqn:?
          end); simplify_eq/=; try done.

(** [resolve_variable] is the resolution without the allowed-values check,
    followed by that check. *)
Lemma resolve_variable_allowed_values_last var_name var_def pv blueprint_name :
  resolve_variable var_name var_def pv blueprint_name
  = let! v := resolve_variable var_name (without_allowed_values var_def)
                pv blueprint_name in
    if negb (validate_allowed_values (VarDef.allowed_values var_def) v)
    then Raise (ValueError (invalid_value_message var_name blueprint_name v
                              (VarDef.allowed_values var_def)))
    else Return v.
Proof.
  unfold resolve_variable, without_allowed_values, bind, Return, Raise.
  cbn [VarDef.type VarDef.default VarDef.validator VarDef.allowed_values].
  destruct (VarDef.type var_def); [|done].
  destruct (match pv with Some _ => _ | None => _ end); [done|].
  destruct (Validator.call _ _); [by destruct (is_Exception _)|].
  destruct (validate_variable_type _ _ _); done.
Qed.

(** The default stands in for a value that was not provided: resolution
    goes on exactly as if the default had been provided, resolved. *)
Lemma resolve_variable_default_as_provided var_name var_def d pv blueprint_name :
  VarDef.default var_def = Some d →
  resolved pv = true → variable_value pv = d →
  resolve_variable var_name var_def None blueprint_name
  = resolve_variable var_name var_def (Some pv) blueprint_name.
Proof.
  intros Hd Hr Hv. unfold resolve_variable. by rewrite Hd, Hr, Hv.
Qed.

(** With a plain class as the declared type, resolution from the input value
    [x] whose validation gives [v]. *)
Lemma resolve_variable_plain var_name var_def pv blueprint_name t x v :
  VarDef.type var_def = Some (PyType t) →
  input_value var_def pv = Some x →
  Validator.call (validator_of var_def) x = Return v →
  resolve_variable var_name var_def pv blueprint_name
  = if negb (isinstance v t)
    then Raise (ValueError (type_error_message var_name t v))
    else if negb (validate_allowed_values (VarDef.allowed_values var_def)
                    (Plain v))
    then Raise (ValueError (invalid_value_message var_name blueprint_name
                              (Plain v) (VarDef.allowed_values var_def)))
    else Return (Plain v).
Proof.
  intros Ht Hx Hcall.
  unfold resolve_variable, bind, Return, Raise. rewrite Ht.
  fold (validator_of var_def).
  unfold input_value in Hx.
  destruct pv as [p|]; [destruct (resolved p)|]; simplify_eq/=.
  all: rewrite ?Hx; cbn [negb]; rewrite Hcall.
  all: unfold Return, validate_variable_type, Raise, Return.
  all: by destruct (negb (isinstance v t)).
Qed.

(** C3, as the code has it.  When the declared type is a plain class [t],
    whatever [resolve_variable] returns is the validated value itself and
    an instance of [t]: of [t] or of a subclass of [t].  When the validated
    value is not an instance of [t], [resolve_variable] raises a
    [ValueError] whose message names [t] and the type of the value; when it
    is one and the allowed-values check passes, resolution succeeds, for a
    value of a strict subtype too. *)
Theorem resolve_variable_type_check var_name var_def pv blueprint_name t :
  VarDef.type var_def = Some (PyType t) →
  (∀ r, resolve_variable var_name var_def pv blueprint_name = Return r →
        ∃ v, r = Plain v ∧ isinstance v t = true)
  ∧ (∀ x v,
       input_value var_def pv = Some x →
       Validator.call (validator_of var_def) x = Return v →
       (isinstance v t = false →
        resolve_variable var_name var_def pv blueprint_name
        = Raise (ValueError (type_error_message var_name t v)))
       ∧ (isinstance v t = true →
          validate_allowed_values (VarDef.allowed_values var_def) (Plain v)
          = true →
          resolve_variable var_name var_def pv blueprint_name
          = Return (Plain v))).
Proof.
  intros Ht. split.
  - intros r. unfold resolve_variable, bind, Return, Raise. rewrite Ht.
    fold (validator_of var_def). unfold validate_variable_type.
    intros Hr. resolve_cases.
    all: unfold Return in *; simplify_eq.
    all: eexists; split; [done|]; by apply negb_false_iff.
  - intros x v Hx Hcall.
    rewrite (resolve_variable_plain _ _ _ _ _ _ _ Ht Hx Hcall).
    split; [by intros ->|]. by intros -> ->.
Qed.

Lemma resolve_variable_type_check_witness :
  resolve_variable "count" (VarDef.mk (Some (PyType TInt)) None None None)
    (Some (mkVariable "count" true (VStr "three"))) "vpc"
  = Raise (ValueError
      "Value for variable count must be of type <class 'int'>. Actual type: <class 'str'>.").
Proof.
  destruct (resolve_variable_type_check "count"
              (VarDef.mk (Some (PyType TInt)) None None None)
              (Some (mkVariable "count" true (VStr "three"))) "vpc" TInt
              eq_refl) as [_ H].
  destruct (H (VStr "three") (VStr "three") eq_refl eq_refl) as [Hfail _].
  apply Hfail. reflexivity.
Defined.

(** C3 does not hold as stated: [True] is a [bool], a strict subtype of the
    declared [int], and its resolution succeeds. *)
Lemma resolve_variable_accepts_subtype :
  resolve_variable "count" (VarDef.mk (Some (PyType TInt)) None None None)
    (Some (mkVariable "count" true (VBool true))) "vpc"
  = Return (Plain (VBool true))
  ∧ type_of (VBool true) ≠ TInt.
Proof. split; [reflexivity|discriminate]. Qed.

(** C4, as the code has it.  For a definition that declares its type:
    without a provided value and without a default, [resolve_variable]
    raises [MissingVariable]; without a provided value and with a default,
    it goes on as if the default had been provided, and returns the default
    unchanged when the validator gives it back, the declared type is a
    plain class the default is an instance of, and the allowed-values check
    passes. *)
Theorem resolve_variable_default var_name var_def blueprint_name ty :
  VarDef.type var_def = Some ty →
  (VarDef.default var_def = None →
   resolve_variable var_name var_def None blueprint_name
   = Raise (MissingVariable blueprint_name (inl var_name)))
  ∧ (∀ d, VarDef.default var_def = Some d →
       resolve_variable var_name var_def None blueprint_name
       = resolve_variable var_name var_def
           (Some (mkVariable var_name true d)) blueprint_name)
  ∧ (∀ d t, VarDef.default var_def = Some d →
       ty = PyType t →
       Validator.call (validator_of var_def) d = Return d →
       isinstance d t = true →
       validate_allowed_values (VarDef.allowed_values var_def) (Plain d)
       = true →
       resolve_variable var_name var_def None blueprint_name
       = Return (Plain d)).
Proof.
  intros Hty. split; [|split].
  - intros Hd. unfold resolve_variable. by rewrite Hty, Hd.
  - intros d Hd. by apply (resolve_variable_default_as_provided _ _ d).
  - intros d t Hd -> Hcall Hinst Hallowed.
    rewrite (resolve_variable_plain _ _ None _ t d d Hty Hd Hcall).
    by rewrite Hinst, Hallowed.
Qed.

Lemma resolve_variable_default_witness :
  resolve_variable "env" (VarDef.mk (Some (PyType TStr)) None None None)
    None "vpc"
  = Raise (MissingVariable "vpc" (inl "env"))
  ∧ resolve_variable "env"
      (VarDef.mk (Some (PyType TStr)) (Some (VStr "dev")) None None)
      None "vpc"
    = Return (Plain (VStr "dev")).
Proof.
  split.
  - destruct (resolve_variable_default "env"
                (VarDef.mk (Some (PyType TStr)) None None None) "vpc"
                (PyType TStr) eq_refl) as [H _].
    apply H. reflexivity.
  - destruct (resolve_variable_default "env"
                (VarDef.mk (Some (PyType TStr)) (Some (VStr "dev")) None None)
                "vpc" (PyType TStr) eq_refl) as (_ & _ & H).
    apply (H (VStr "dev") TStr); reflexivity.
Defined.

(** C4 does not hold as stated: a definition without a type raises
    [VariableTypeRequired], not [MissingVariable], when nothing is provided
    and there is no default; and a [CFNType] default is returned wrapped in
    a [CFNParameter] (an [int] turned into text), not unchanged. *)
Lemma resolve_variable_default_not_unchanged :
  resolve_variable "env" (VarDef.mk None None None None) None "vpc"
  = Raise (VariableTypeRequired "vpc" "env")
  ∧ resolve_variable "size"
      (VarDef.mk (Some (CFNType "Number")) (Some (VInt 5)) None None)
      None "vpc"
    = Return (CFNParam (CFNParameter.mk "size" (VStr "5"))).
Proof. split; reflexivity. Qed.

(** C5.  With a non-empty [allowed_values] list [l], and [v] the value the
    resolution gives when the list is left out of the definition:
    [resolve_variable] returns [v] when [v] is a [CFNParameter], whatever
    the list; returns [v] when [v] is in the list; and raises a
    [ValueError] when [v] is not in the list. *)
Theorem resolve_variable_allowed_values var_name var_def pv blueprint_name l v :
  VarDef.allowed_values var_def = Some l →
  l ≠ [] →
  resolve_variable var_name (without_allowed_values var_def) pv blueprint_name
  = Return v →
  (is_CFNParameter v = true →
   resolve_variable var_name var_def pv blueprint_name = Return v)
  ∧ (∀ x, v = Plain x → py_in x l = true →
       resolve_variable var_name var_def pv blueprint_name = Return v)
  ∧ (∀ x, v = Plain x → py_in x l = false →
       resolve_variable var_name var_def pv blueprint_name
       = Raise (ValueError (invalid_value_message var_name blueprint_name v
                              (Some l)))).
Proof.
  intros Hl Hne Hv.
  rewrite resolve_variable_allowed_values_last, Hv, Hl.
  unfold bind, Return, validate_allowed_values.
  destruct l as [|y l]; [done|].
  split; [|split].
  - intros ->. by rewrite orb_true_r.
  - intros x -> Hin. cbn [is_CFNParameter orb]. by rewrite Hin.
  - intros x -> Hin. cbn [is_CFNParameter orb]. by rewrite Hin.
Qed.

Lemma resolve_variable_allowed_values_witness :
  resolve_variable "env"
    (VarDef.mk (Some (PyType TStr)) None None (Some [VStr "a"; VStr "b"]))
    (Some (mkVariable "env" true (VStr "c"))) "vpc"
  = Raise (ValueError
      "Invalid value passed to 'env' in blueprint: vpc. Got: 'c', expected one of ['a', 'b']")
  ∧ resolve_variable "env"
      (VarDef.mk (Some (PyType TStr)) None None (Some [VStr "a"; VStr "b"]))
      (Some (mkVariable "env" true (VStr "a"))) "vpc"
    = Return (Plain (VStr "a")).
Proof.
  split.
  - destruct (resolve_variable_allowed_values "env"
                (VarDef.mk (Some (PyType TStr)) None None
                   (Some [VStr "a"; VStr "b"]))
                (Some (mkVariable "env" true (VStr "c"))) "vpc"
                [VStr "a"; VStr "b"] (Plain (VStr "c")))
      as (_ & _ & H); [reflexivity|discriminate|reflexivity|].
    apply (H (VStr "c")); reflexivity.
  - destruct (resolve_variable_allowed_values "env"
                (VarDef.mk (Some (PyType TStr)) None None
                   (Some [VStr "a"; VStr "b"]))
                (Some (mkVariable "env" true (VStr "a"))) "vpc"
                [VStr "a"; VStr "b"] (Plain (VStr "a")))
      as (_ & H & _); [reflexivity|discriminate|reflexivity|].
    apply (H (VStr "a")); reflexivity.
Defined.

(* ===================================================================== *)
(** * Properties of user-data templating *)
(* ===================================================================== *)

Section templating.

Implicit Types (s t rest : string) (mapping : gmap string value).

Lemma string_app_cons c s t : String c s +:+ t = String c (s +:+ t).
Proof. reflexivity. Qed.

Lemma string_app_nil_l s : "" +:+ s = s.
Proof. reflexivity. Qed.

Lemma string_app_assoc s t u : (s +:+ t) +:+ u = s +:+ (t +:+ u).
Proof.
  induction s as [|c s IH]; [done|]. by rewrite !string_app_cons, IH.
Qed.

Lemma string_app_nil_r s : s +:+ "" = s.
Proof.
  induction s as [|c s IH]; [done|]. by rewrite string_app_cons, IH.
Qed.

Lemma string_app_length s t :
  String.length (s +:+ t) = (String.length s + String.length t)%nat.
Proof.
  induction s as [|c s IH]; [done|]. rewrite string_app_cons. cbn.
  by rewrite IH.
Qed.

Lemma bind_Return {A} (r : result A) : bind r (λ x, Return x) = r.
Proof. by destruct r. Qed.

(** Text without a delimiter is copied. *)
Lemma substitute_go_literal template mapping s rest i :
  string_contains "$" s = false →
  Template.substitute_go template mapping 0 i (s +:+ rest)
  = let! r := Template.substitute_go template mapping 0
                (i + String.length s) rest in
    Return (s +:+ r).
Proof.
  revert i. induction s as [|c s IH]; intros i Hs.
  - rewrite string_app_nil_l. cbn [String.length].
    by rewrite Nat.add_0_r, bind_Return.
  - change (Ascii.eqb "$" c || string_contains "$" s = false) in Hs.
    apply orb_false_iff in Hs as [Hc Hs].
    rewrite string_app_cons. cbn [Template.substitute_go String.length].
    rewrite Ascii.eqb_sym, Hc, (IH _ Hs).
    replace (i + S (String.length s))%nat with (S i + String.length s)%nat
      by lia.
    by destruct (Template.substitute_go _ _ _ _ rest).
Qed.

(** The characters of the match just replaced are passed over. *)
Lemma substitute_go_skip template mapping s rest i :
  Template.substitute_go template mapping (String.length s) i (s +:+ rest)
  = Template.substitute_go template mapping 0 (i + String.length s) rest.
Proof.
  revert i. induction s as [|c s IH]; intros i.
  - rewrite string_app_nil_l. cbn [String.length]. by rewrite Nat.add_0_r.
  - rewrite string_app_cons. cbn [Template.substitute_go String.length].
    rewrite IH. f_equal. lia.
Qed.

Lemma span_id_name n rest :
  all_id_chars n = true →
  Template.span_id (n +:+ String "}" rest) = n.
Proof.
  induction n as [|c n IH]; intros Hn; [done|].
  change (Template.is_id_char c && all_id_chars n = true) in Hn.
  apply andb_true_iff in Hn as [Hc Hn].
  rewrite string_app_cons. cbn [Template.span_id]. by rewrite Hc, IH.
Qed.

Lemma drop_string_app s t :
  Template.drop_string (String.length s) (s +:+ t) = t.
Proof.
  induction s as [|c s IH]; [by destruct t|].
  rewrite string_app_cons. cbn [String.length Template.drop_string]. done.
Qed.

(** A placeholder [${name}] matches the braced alternative. *)
Lemma match_after_delimiter_braced n rest :
  valid_name n = true →
  Template.match_after_delimiter (String "{" (n +:+ String "}" rest))
  = Template.Braced n.
Proof.
  destruct n as [|c n]; [done|]. intros [Hc Hn]%andb_true_iff.
  unfold Template.match_after_delimiter.
  change (Ascii.eqb "{" "$") with false.
  change (Template.is_id_start "{") with false.
  change (Ascii.eqb "{" "{") with true. cbv iota.
  rewrite (span_id_name _ _ Hn), drop_string_app.
  rewrite string_app_cons, Hc. done.
Qed.

(** One step of the scan at a delimiter. *)
Lemma substitute_go_delimiter template mapping i rest :
  Template.substitute_go template mapping 0 i (String "$" rest)
  = match Template.match_after_delimiter rest with
    | Template.Escaped =>
        let! r := Template.substitute_go template mapping 1 (S i) rest in
        Return ("$" +:+ r)
    | (Template.Named name | Template.Braced name) as tok =>
        match mapping !! name with
        | Some v =>
            let! r := Template.substitute_go template mapping
                        (Template.token_length tok) (S i) rest in
            Return (py_str v +:+ r)
        | None => Raise (KeyError name)
        end
    | Template.Invalid =>
        Raise (ValueError (Template.invalid_message template (S i)))
    end.
Proof.
  cbn [Template.substitute_go]. change (Ascii.eqb "$" "$") with true.
  cbv iota zeta. by destruct (Template.match_after_delimiter rest).
Qed.

(** A placeholder whose variable is there is replaced by the printed value
    of the variable. *)
Lemma substitute_go_placeholder template mapping n rest i v :
  valid_name n = true →
  mapping !! n = Some v →
  Template.substitute_go template mapping 0 i
    ("${" +:+ n +:+ "}" +:+ rest)
  = let! r := Template.substitute_go template mapping 0
                (i + (String.length n + 3)) rest in
    Return (py_str v +:+ r).
Proof.
  intros Hn Hv.
  change ("${" +:+ n +:+ "}" +:+ rest)
    with (String "$" (String "{" (n +:+ String "}" rest))).
  rewrite substitute_go_delimiter, (match_after_delimiter_braced _ _ Hn), Hv.
  cbn [Template.token_length].
  change (String "{" (n +:+ String "}" rest))
    with (String "{" (n +:+ "}" +:+ rest)).
  rewrite <- string_app_assoc, <- string_app_cons.
  replace (String.length n + 2)%nat
    with (String.length (String "{" (n +:+ "}"))).
  2:{ cbn [String.length]. rewrite string_app_length. cbn. lia. }
  rewrite substitute_go_skip. cbn [String.length].
  rewrite string_app_length. cbn [String.length].
  replace (S i + S (String.length n + 1))%nat
    with (i + (String.length n + 3))%nat by lia.
  done.
Qed.

(** A placeholder whose variable is missing raises [KeyError]. *)
Lemma substitute_go_missing template mapping n rest i :
  valid_name n = true →
  mapping !! n = None →
  Template.substitute_go template mapping 0 i
    ("${" +:+ n +:+ "}" +:+ rest)
  = Raise (KeyError n).
Proof.
  intros Hn Hv.
  change ("${" +:+ n +:+ "}" +:+ rest)
    with (String "$" (String "{" (n +:+ String "}" rest))).
  by rewrite substitute_go_delimiter, (match_after_delimiter_braced _ _ Hn), Hv.
Qed.

(** An invalid token after the delimiter raises [ValueError]. *)
Lemma substitute_go_invalid template mapping rest i :
  Template.match_after_delimiter rest = Template.Invalid →
  Template.substitute_go template mapping 0 i (String "$" rest)
  = Raise (ValueError (Template.invalid_message template (S i))).
Proof.
  intros Hr. by rewrite substitute_go_delimiter, Hr.
Qed.

End templating.


(* ===================================================================== *)
(** * Properties of hook execution *)
(* ===================================================================== *)

Section hooks.

Context {Provider : Type}.
Variable load_object_from_string : string → result (@Hooks.handler Provider).
Variable provider : Provider.

Local Abbreviation run_hook :=
  (Hooks.run_hook load_object_from_string provider).
Local Abbreviation run_hooks :=
  (Hooks.run_hooks load_object_from_string provider).
Local Abbreviation handle_hooks :=
  (Hooks.handle_hooks load_object_from_string).

Lemma run_hooks_app pre post st :
  run_hooks (pre ++ post) st
  = match run_hooks pre st with
    | (inr _, st') => run_hooks post st'
    | (inl exc, st') => (Raise exc, st')
    end.
Proof.
  revert st. induction pre as [|h pre IH]; intros st; [done|].
  cbn [app Hooks.run_hooks].
  destruct (run_hook h st) as [[exc|[]] st']; [done|]. apply IH.
Qed.

Lemma handle_hooks_nonempty stage hooks st :
  hooks ≠ [] →
  handle_hooks stage hooks provider st
  = run_hooks hooks (hooks_start stage hooks st).
Proof. by destruct hooks. Qed.

(** A hook the loop reaches: the run is its body, then the hooks after it. *)
Lemma handle_hooks_at stage pre hook post st st1 :
  run_hooks pre (hooks_start stage (pre ++ hook :: post) st)
  = (Return tt, st1) →
  handle_hooks stage (pre ++ hook :: post) provider st
  = match run_hook hook st1 with
    | (inr _, st2) => run_hooks post st2
    | (inl exc, st2) => (Raise exc, st2)
    end.
Proof.
  intros Hpre. rewrite handle_hooks_nonempty by (by destruct pre).
  rewrite run_hooks_app, Hpre. done.
Qed.

(** The body of the loop for an enabled hook whose handler loads. *)
Lemma run_hook_called hook st method :
  Hooks.enabled hook = true →
  load_object_from_string (Hooks.path hook) = Return method →
  run_hook hook st
  = match method (Hooks.context st) provider (Hooks.kwargs_of hook) with
    | (inl exc, ctx) =>
        if is_Exception exc then
          (if Hooks.required hook then Raise exc else Return tt,
           after_handler st ctx (Hooks.MethodThrew (Hooks.path hook) exc))
        else (Raise exc, Hooks.mkState (Hooks.log st) ctx)
    | (inr result, ctx) =>
        if negb (Hooks.truthy result) then
          if Hooks.required hook then
            (Raise (SystemExit 1),
             after_handler st ctx
               (Hooks.RequiredHookFailed (Hooks.path hook) result))
          else
            (Return tt,
             after_handler st ctx
               (Hooks.NonRequiredHookFailed (Hooks.path hook) result))
        else if Hooks.is_Mapping result then
          match Hooks.data_key_set (Hooks.data_key hook) with
          | Some k =>
              (Return tt,
               Hooks.mkState
                 (Hooks.log st ++ [Hooks.AddingResult (Hooks.path hook) k])
                 (Hooks.set_hook_data k result ctx))
          | None =>
              (Return tt,
               after_handler st ctx (Hooks.NoDataKey (Hooks.path hook)))
          end
        else (Return tt, Hooks.mkState (Hooks.log st) ctx)
    end.
Proof.
  intros Hen Hload. unfold Hooks.run_hook. rewrite Hen, Hload.
  cbn [negb]. unfold Return at 1.
  destruct (method _ _ _) as [[exc|result] ctx].
  - destruct (is_Exception exc); [|done]. by destruct (Hooks.required hook).
  - done.
Qed.

(** C6, as the code has it.  Take a hook the loop reaches, enabled, whose
    handler loads and is called.  When the handler returns a result that is
    false: a required hook ends the run with [SystemExit(1)], an error in
    the log; an optional hook has a warning logged and the run goes on with
    the hooks after it.  When the handler raises an instance of
    [Exception]: it is logged, a required hook lets it out of
    [handle_hooks], an optional hook has it swallowed and the run goes on
    with the hooks after it. *)
Theorem handle_hooks_failure stage pre hook post st st1 method outcome ctx :
  run_hooks pre (hooks_start stage (pre ++ hook :: post) st)
  = (Return tt, st1) →
  Hooks.enabled hook = true →
  load_object_from_string (Hooks.path hook) = Return method →
  method (Hooks.context st1) provider (Hooks.kwargs_of hook) = (outcome, ctx) →
  match outcome with
  | inr result =>
      Hooks.truthy result = false →
      handle_hooks stage (pre ++ hook :: post) provider st
      = if Hooks.required hook then
          (Raise (SystemExit 1),
           after_handler st1 ctx
             (Hooks.RequiredHookFailed (Hooks.path hook) result))
        else
          run_hooks post
            (after_handler st1 ctx
               (Hooks.NonRequiredHookFailed (Hooks.path hook) result))
  | inl exc =>
      is_Exception exc = true →
      handle_hooks stage (pre ++ hook :: post) provider st
      = if Hooks.required hook then
          (Raise exc,
           after_handler st1 ctx (Hooks.MethodThrew (Hooks.path hook) exc))
        else
          run_hooks post
            (after_handler st1 ctx (Hooks.MethodThrew (Hooks.path hook) exc))
  end.
Proof.
  intros Hpre Hen Hload Hcall.
  rewrite (handle_hooks_at _ _ _ _ _ _ Hpre).
  rewrite (run_hook_called _ _ _ Hen Hload), Hcall.
  destruct outcome as [exc|result].
  - intros ->. by destruct (Hooks.required hook).
  - intros ->. cbn [negb]. by destruct (Hooks.required hook).
Qed.

(** C9.  Take a hook the loop reaches, enabled, whose handler loads and
    returns an empty mapping.  The result counts as a failure: a required
    hook ends the run with [SystemExit(1)], an optional hook has a warning
    logged and the run goes on.  Either way the state the hook leaves has
    the context as the handler left it: nothing is stored in the hook data,
    whatever the data key of the hook. *)
Theorem handle_hooks_empty_mapping stage pre hook post st st1 method ctx :
  run_hooks pre (hooks_start stage (pre ++ hook :: post) st)
  = (Return tt, st1) →
  Hooks.enabled hook = true →
  load_object_from_string (Hooks.path hook) = Return method →
  method (Hooks.context st1) provider (Hooks.kwargs_of hook)
  = (Return (Hooks.RMapping ∅), ctx) →
  ∃ st2,
    Hooks.context st2 = ctx
    ∧ Hooks.log st2
      = Hooks.log st1
        ++ [(if Hooks.required hook
             then Hooks.RequiredHookFailed
             else Hooks.NonRequiredHookFailed)
              (Hooks.path hook) (Hooks.RMapping ∅)]
    ∧ Hooks.level_of (Hooks.NonRequiredHookFailed (Hooks.path hook)
                        (Hooks.RMapping ∅)) = Hooks.WARNING
    ∧ run_hook hook st1
      = (if Hooks.required hook then Raise (SystemExit 1) else Return tt, st2)
    ∧ handle_hooks stage (pre ++ hook :: post) provider st
      = if Hooks.required hook then (Raise (SystemExit 1), st2)
        else run_hooks post st2.
Proof.
  intros Hpre Hen Hload Hcall.
  rewrite (handle_hooks_at _ _ _ _ _ _ Hpre).
  rewrite (run_hook_called _ _ _ Hen Hload), Hcall.
  unfold Return at 1. cbn [Hooks.truthy].
  rewrite bool_decide_eq_true_2 by done. cbn [negb].
  destruct (Hooks.required hook).
  - exists (after_handler st1 ctx
              (Hooks.RequiredHookFailed (Hooks.path hook) (Hooks.RMapping ∅))).
    by split_and!.
  - exists (after_handler st1 ctx
              (Hooks.NonRequiredHookFailed (Hooks.path hook)
                 (Hooks.RMapping ∅))).
    by split_and!.
Qed.

End hooks.

Lemma handle_hooks_failure_witness :
  Hooks.handle_hooks (λ _, Return returns_False) "pre_build"
    [Hooks.mkHook "hooks.check" None true None true] tt empty_state
  = (Raise (SystemExit 1),
     Hooks.mkState
       [Hooks.ExecutingHooks "pre_build" "hooks.check";
        Hooks.RequiredHookFailed "hooks.check" (Hooks.RValue (VBool false))]
       (Hooks.mkContext ∅))
  ∧ Hooks.handle_hooks (λ _, Return returns_False) "pre_build"
      [Hooks.mkHook "hooks.check" None false None true;
       Hooks.mkHook "hooks.next" None false None false] tt empty_state
    = (Return tt,
       Hooks.mkState
         [Hooks.ExecutingHooks "pre_build" "hooks.check, hooks.next";
          Hooks.NonRequiredHookFailed "hooks.check"
            (Hooks.RValue (VBool false));
          Hooks.HookDisabled "hooks.next"]
         (Hooks.mkContext ∅))
  ∧ Hooks.handle_hooks (λ _, Return raises_error) "pre_build"
      [Hooks.mkHook "hooks.check" None true None true;
       Hooks.mkHook "hooks.next" None false None false] tt empty_state
    = (Raise (PyException "RuntimeError" "boom"),
       Hooks.mkState
         [Hooks.ExecutingHooks "pre_build" "hooks.check, hooks.next";
          Hooks.MethodThrew "hooks.check" (PyException "RuntimeError" "boom")]
         (Hooks.mkContext ∅))
  ∧ Hooks.handle_hooks (λ _, Return raises_error) "pre_build"
      [Hooks.mkHook "hooks.check" None false None true;
       Hooks.mkHook "hooks.next" None false None false] tt empty_state
    = (Return tt,
       Hooks.mkState
         [Hooks.ExecutingHooks "pre_build" "hooks.check, hooks.next";
          Hooks.MethodThrew "hooks.check" (PyException "RuntimeError" "boom");
          Hooks.HookDisabled "hooks.next"]
         (Hooks.mkContext ∅)).
Proof.
  split_and!.
  - pose proof (handle_hooks_failure (λ _, Return returns_False) tt
                  "pre_build" [] (Hooks.mkHook "hooks.check" None true None true)
                  [] empty_state _ returns_False _ _
                  eq_refl eq_refl eq_refl eq_refl) as H.
    apply H. reflexivity.
  - pose proof (handle_hooks_failure (λ _, Return returns_False) tt
                  "pre_build" [] (Hooks.mkHook "hooks.check" None false None true)
                  [Hooks.mkHook "hooks.next" None false None false]
                  empty_state _ returns_False _ _
                  eq_refl eq_refl eq_refl eq_refl) as H.
    apply H. reflexivity.
  - pose proof (handle_hooks_failure (λ _, Return raises_error) tt
                  "pre_build" [] (Hooks.mkHook "hooks.check" None true None true)
                  [Hooks.mkHook "hooks.next" None false None false]
                  empty_state _ raises_error _ _
                  eq_refl eq_refl eq_refl eq_refl) as H.
    apply H. reflexivity.
  - pose proof (handle_hooks_failure (λ _, Return raises_error) tt
                  "pre_build" [] (Hooks.mkHook "hooks.check" None false None true)
                  [Hooks.mkHook "hooks.next" None false None false]
                  empty_state _ raises_error _ _
                  eq_refl eq_refl eq_refl eq_refl) as H.
    apply H. reflexivity.
Defined.

(** C6 does not hold as stated.  An optional hook whose handler leaves with
    [sys.exit(2)] raises an exception that is no [Exception]: it is not
    swallowed and not logged, and the hook after it does not run. *)
Lemma handle_hooks_exit_not_swallowed :
  Hooks.handle_hooks (λ _, Return exits) "pre_build"
    [Hooks.mkHook "hooks.exit" None false None true;
     Hooks.mkHook "hooks.next" None false None true] tt empty_state
  = (Raise (SystemExit 2),
     Hooks.mkState
       [Hooks.ExecutingHooks "pre_build" "hooks.exit, hooks.next"]
       (Hooks.mkContext ∅))
  ∧ is_Exception (SystemExit 2) = false.
Proof. split; reflexivity. Qed.

Lemma handle_hooks_empty_mapping_witness :
  Hooks.handle_hooks (λ _, Return returns_empty_mapping) "pre_build"
    [Hooks.mkHook "hooks.data" (Some "data") true None true] tt empty_state
  = (Raise (SystemExit 1),
     Hooks.mkState
       [Hooks.ExecutingHooks "pre_build" "hooks.data";
        Hooks.RequiredHookFailed "hooks.data" (Hooks.RMapping ∅)]
       (Hooks.mkContext ∅)).
Proof.
  destruct (handle_hooks_empty_mapping (λ _, Return returns_empty_mapping) tt
              "pre_build" []
              (Hooks.mkHook "hooks.data" (Some "data") true None true)
              [] empty_state _ returns_empty_mapping _
              eq_refl eq_refl eq_refl eq_refl)
    as ([log2 ctx2] & Hctx & Hlog & _ & _ & Hrun).
  cbn in Hctx, Hlog. subst. exact Hrun.
Defined.

(* ===================================================================== *)
(** * Properties of the diff action *)
(* ===================================================================== *)

Section diff_action.

Context {Stack Provider Tags Parameters TemplateBody Outputs RunContext : Type}.

Implicit Types
  (self : @DiffAction.collaborators Stack Provider Tags Parameters
            TemplateBody Outputs RunContext).

(** C8.  When the stack is to be submitted and updated, the steps before the
    provider call succeed, and the provider raises [StackDidNotChange] from
    [get_stack_changes], [_diff_stack] logs the fact and returns
    [COMPLETE]: nothing is raised. *)
Theorem diff_stack_did_not_change self (context : RunContext) stack log
    provider tags stack' parameters body :
  DiffAction.cancel_wait self = false →
  DiffAction.should_submit self stack = true →
  DiffAction.should_update self stack = true →
  DiffAction.build_provider self stack = Return provider →
  DiffAction.build_stack_tags self stack = Return tags →
  DiffAction.stack_resolve self stack context provider = Return stack' →
  DiffAction.build_parameters self stack' = Return parameters →
  DiffAction.template self stack' = Return body →
  DiffAction.get_stack_changes self provider stack' body parameters tags
  = Raise StackDidNotChange →
  DiffAction._diff_stack self context stack log
  = (Return DiffAction.COMPLETE,
     (stack', log ++ [DiffAction.NoChanges (DiffAction.fqn self stack')])).
Proof.
  intros Hc Hs Hu Hp Ht Hr Hpar Hb Hg. unfold DiffAction._diff_stack.
  rewrite Hc, Hs, Hu. cbn [negb].
  rewrite Hp. unfold Return at 1. rewrite Ht. unfold Return at 1.
  rewrite Hr. unfold Return at 1. rewrite Hpar. unfold Return at 1.
  rewrite Hb. unfold bind at 1. unfold Return at 1. rewrite Hg. done.
Qed.

End diff_action.

Lemma diff_stack_did_not_change_witness :
  DiffAction._diff_stack unchanged_stack tt "vpc" []
  = (Return DiffAction.COMPLETE, ("vpc", [DiffAction.NoChanges "prod-vpc"])).
Proof.
  apply (diff_stack_did_not_change unchanged_stack tt "vpc" []
           tt tt "vpc" tt tt); reflexivity.
Defined.

(* ===================================================================== *)
(** * Further properties of the diff engine *)
(* ===================================================================== *)

Section diff_engine_more.

Implicit Types (old_dict new_dict : gmap string value) (d : DictValue.t).

Lemma fmap_fixed {A} (f : A → A) (l : list A) :
  (∀ x, x ∈ l → f x = x) → f <$> l = l.
Proof.
  induction l as [|x l IH]; intros Hl; [done|].
  rewrite fmap_cons, (Hl x) by (by left).
  f_equal. apply IH. intros y Hy. apply Hl. by right.
Qed.

Lemma output_entry_is_entry_for old_dict new_dict d :
  d ∈ (diff_dictionaries old_dict new_dict).2 →
  entry_for old_dict new_dict (DictValue.key d) = d.
Proof.
  intros Hd. destruct (output_entry_values _ _ _ Hd) as (_ & Ho & Hn).
  unfold entry_for. rewrite <- Ho, <- Hn. by destruct d.
Qed.

(** The keys of the output are the keys of the two mappings, sorted. *)
Lemma output_keys_sorted old_dict new_dict :
  DictValue.key <$> (diff_dictionaries old_dict new_dict).2
  = merge_sort String.le (elements (dom old_dict ∪ dom new_dict)).
Proof.
  apply (Sorted_unique String.le).
  - apply StronglySorted_Sorted. rewrite diff_dictionaries_unfold. cbn [snd].
    apply (StronglySorted_fmap _ key_le); [done|].
    apply StronglySorted_merge_sort; apply _.
  - apply Sorted_merge_sort. apply _.
  - rewrite merge_sort_Permutation. apply NoDup_Permutation.
    + rewrite output_Permutation. apply unsorted_output_keys_NoDup.
    + apply NoDup_elements.
    + intros k. rewrite diff_dictionaries_keys, elem_of_elements. done.
Qed.

(** The second component of [diff_dictionaries], entry by entry. *)
Lemma diff_dictionaries_output old_dict new_dict :
  (diff_dictionaries old_dict new_dict).2
  = entry_for old_dict new_dict
      <$> merge_sort String.le (elements (dom old_dict ∪ dom new_dict)).
Proof.
  rewrite <- output_keys_sorted, <- list_fmap_compose.
  symmetry. apply fmap_fixed. intros d Hd.
  by apply output_entry_is_entry_for.
Qed.

(** X1.  The list [diff_dictionaries] returns is fixed by the two mappings: the
    entries of their keys, in ascending order, each holding what the two
    mappings hold for its key.  The order in which the sets are walked
    leaves no trace. *)
Theorem diff_dictionaries_entries old_dict new_dict :
  (diff_dictionaries old_dict new_dict).2
  = entry_for old_dict new_dict
      <$> merge_sort String.le (elements (dom old_dict ∪ dom new_dict)).
Proof.
  rewrite <- output_keys_sorted, <- list_fmap_compose.
  symmetry. apply fmap_fixed. intros d Hd.
  by apply output_entry_is_entry_for.
Qed.

Lemma str_differs_sym old_dict new_dict k :
  str_differs new_dict old_dict k = str_differs old_dict new_dict k.
Proof. unfold str_differs. by rewrite String.eqb_sym. Qed.

(** X2.  Diffing the other way round: the count is the same and every entry is
    read the other way round, so what was [ADDED] is [REMOVED] and what was
    [REMOVED] is [ADDED]. *)
Theorem diff_dictionaries_swap old_dict new_dict :
  diff_dictionaries new_dict old_dict
  = ((diff_dictionaries old_dict new_dict).1,
     swap_entry <$> (diff_dictionaries old_dict new_dict).2).
Proof.
  rewrite (surjective_pairing (diff_dictionaries new_dict old_dict)).
  f_equal.
  - rewrite !diff_dictionaries_unfold. cbn [fst].
    assert (dom new_dict ∩ dom old_dict = dom old_dict ∩ dom new_dict) as ->
      by apply (comm_L _).
    rewrite (list_filter_iff _ (λ k, str_differs old_dict new_dict k = true))
      by (intros k; by rewrite str_differs_sym).
    lia.
  - rewrite !diff_dictionaries_output, <- list_fmap_compose.
    assert (dom new_dict ∪ dom old_dict = dom old_dict ∪ dom new_dict) as ->
      by apply (comm_L _).
    apply list_fmap_ext. intros i k _. reflexivity.
Qed.

(** X3.  A mapping diffed with itself: no change is counted, every entry
    holds one and the same value as its old and its new value, and
    [diff_parameters] returns the empty list. *)
Theorem diff_dictionaries_same (d0 : gmap string value) :
  (diff_dictionaries d0 d0).1 = 0%nat
  ∧ Forall (λ d, DictValue.old_value d = DictValue.new_value d)
      (diff_dictionaries d0 d0).2
  ∧ diff_parameters d0 d0 = [].
Proof.
  assert ((diff_dictionaries d0 d0).1 = 0%nat) as Hzero.
  { rewrite diff_dictionaries_count. rewrite filter_none; [done|].
    intros d Hd. unfold counted.
    assert (DictValue.key d ∈ dom d0 ∪ dom d0) as Hk
      by (apply diff_dictionaries_keys, list_elem_of_fmap; eauto).
    assert (DictValue.key d ∈ dom d0) as [a Ha]%elem_of_dom by set_solver.
    by rewrite Ha, String.eqb_refl. }
  split_and!; [done| |].
  - apply Forall_forall. intros d Hd.
    by rewrite <- (output_entry_is_entry_for _ _ _ Hd).
  - unfold diff_parameters.
    destruct (diff_dictionaries d0 d0) as [changes diff].
    cbn [fst] in Hzero. by rewrite Hzero.
Qed.

(** A count of zero leaves no key on one side only and no common key whose
    values print differently. *)
Lemma count_zero_prints_alike old_dict new_dict :
  (diff_dictionaries old_dict new_dict).1 = 0%nat →
  dom old_dict = dom new_dict
  ∧ ∀ k a b, old_dict !! k = Some a → new_dict !! k = Some b →
             py_str a = py_str b.
Proof.
  rewrite diff_dictionaries_unfold. cbn [fst]. intros Hzero.
  assert (size (dom new_dict ∖ dom old_dict) = 0%nat) as Hadd by lia.
  assert (size (dom old_dict ∖ dom new_dict) = 0%nat) as Hrem by lia.
  assert (length (filter (λ k, str_differs old_dict new_dict k = true)
                    (elements (dom old_dict ∩ dom new_dict))) = 0%nat)
    as Hcommon by lia.
  apply size_empty_iff in Hadd, Hrem.
  apply length_zero_iff_nil in Hcommon.
  split.
  { apply set_eq. intros k. split; intros Hk.
    - destruct (decide (k ∈ dom new_dict)) as [|Hn]; [done|].
      exfalso. apply (not_elem_of_empty (C:=gset string) k).
      rewrite <- Hrem. by apply elem_of_difference.
    - destruct (decide (k ∈ dom old_dict)) as [|Ho]; [done|].
      exfalso. apply (not_elem_of_empty (C:=gset string) k).
      rewrite <- Hadd. by apply elem_of_difference. }
  intros k a b Ha Hb.
  destruct (String.eqb (py_str a) (py_str b)) eqn:E;
    [by apply String.eqb_eq|].
  exfalso.
  apply (filter_nil_not_elem_of _ _ k Hcommon).
  + unfold str_differs.
    by rewrite (lookup_total_correct _ _ _ Ha),
      (lookup_total_correct _ _ _ Hb), E.
  + apply elem_of_elements, elem_of_intersection.
    split; apply elem_of_dom; eauto.
Qed.

(** The same keys and values that print alike give a count of zero. *)
Lemma prints_alike_count_zero old_dict new_dict :
  dom old_dict = dom new_dict →
  (∀ k a b, old_dict !! k = Some a → new_dict !! k = Some b →
            py_str a = py_str b) →
  (diff_dictionaries old_dict new_dict).1 = 0%nat.
Proof.
  intros Hdom Hstr. rewrite diff_dictionaries_count.
  rewrite filter_none; [done|].
  intros d Hd. unfold counted.
  assert (DictValue.key d ∈ dom old_dict ∪ dom new_dict) as Hk
    by (apply diff_dictionaries_keys, list_elem_of_fmap; eauto).
  assert (DictValue.key d ∈ dom old_dict) as [a Ha]%elem_of_dom
    by set_solver.
  assert (DictValue.key d ∈ dom new_dict) as [b Hb]%elem_of_dom
    by set_solver.
  rewrite Ha, Hb, (Hstr _ _ _ Ha Hb), String.eqb_refl. done.
Qed.

(** X4.  The count is zero exactly when the two mappings have the same keys and
    the two values of every key print alike. *)
Theorem diff_dictionaries_no_change_iff old_dict new_dict :
  (diff_dictionaries old_dict new_dict).1 = 0%nat
  ↔ dom old_dict = dom new_dict
    ∧ ∀ k a b, old_dict !! k = Some a → new_dict !! k = Some b →
               py_str a = py_str b.
Proof.
  split.
  - apply count_zero_prints_alike.
  - intros [Hdom Hstr]. by apply prints_alike_count_zero.
Qed.

End diff_engine_more.

(** C10.  [diff_parameters] returns the empty list exactly when the count of
    [diff_dictionaries] is zero, which is when the two mappings have the
    same keys and the two values of every key print alike.  When the count
    is not zero it returns the whole list of [diff_dictionaries]: one entry
    per key of either mapping, in ascending order of the keys; the entry of
    a common key is there, and it is [UNMODIFIED] when the two values are
    equal. *)
Theorem diff_parameters_spec (old_params new_params : gmap string value) :
  (diff_parameters old_params new_params = []
   ↔ (diff_dictionaries old_params new_params).1 = 0%nat)
  ∧ ((diff_dictionaries old_params new_params).1 = 0%nat
     ↔ prints_alike old_params new_params)
  ∧ (prints_alike old_params new_params →
     diff_parameters old_params new_params = [])
  ∧ ((diff_dictionaries old_params new_params).1 ≠ 0%nat →
     diff_parameters old_params new_params
     = (diff_dictionaries old_params new_params).2
     ∧ diff_parameters old_params new_params
       = entry_for old_params new_params
           <$> merge_sort String.le
                 (elements (dom old_params ∪ dom new_params))
     ∧ ∀ k a b, old_params !! k = Some a → new_params !! k = Some b →
         DictValue.mk k a b ∈ diff_parameters old_params new_params
         ∧ (py_eq a b = true →
            DictValue.status (DictValue.mk k a b) = DictValue.UNMODIFIED)).
Proof.
  pose proof (diff_dictionaries_count old_params new_params) as Hcount.
  pose proof (diff_dictionaries_output old_params new_params) as Hout.
  assert ((diff_dictionaries old_params new_params).1 = 0%nat
          ↔ prints_alike old_params new_params) as Hzero.
  { split; [apply count_zero_prints_alike|].
    intros [Hdom Hstr]. by apply prints_alike_count_zero. }
  unfold diff_parameters in *.
  destruct (diff_dictionaries old_params new_params) as [changes diff] eqn:E.
  cbn [fst snd] in *.
  assert (changes ≠ 0%nat → (if (changes =? 0)%nat then [] else diff) = diff)
    as Hnz by (intros ?%Nat.eqb_neq; by case_match).
  split_and!.
  - split; [|by intros ->].
    intros Hnil. destruct (decide (changes = 0%nat)) as [|Hne]; [done|].
    rewrite (Hnz Hne) in Hnil. rewrite Hnil in Hcount. done.
  - done.
  - intros Halike. apply Hzero in Halike. by rewrite Halike.
  - intros Hne. rewrite (Hnz Hne). split_and!; [done..|].
    intros k a b Ha Hb. split.
    + rewrite Hout. apply list_elem_of_fmap. exists k. split.
      * unfold entry_for. by rewrite Ha, Hb.
      * rewrite merge_sort_Permutation.
        apply elem_of_elements, elem_of_union_l, elem_of_dom. by eexists.
    + intros Heq. unfold DictValue.status. cbn -[py_eq]. by rewrite Heq.
Qed.

Lemma diff_parameters_spec_witness :
  diff_parameters {[ "a" := VInt 1 ]} {[ "a" := VStr "1" ]} = []
  ∧ py_eq (VInt 1) (VStr "1") = false
  ∧ diff_parameters {[ "a" := VInt 1; "b" := VInt 2 ]}
      {[ "a" := VInt 1; "b" := VInt 3 ]}
    = [DictValue.mk "a" (VInt 1) (VInt 1); DictValue.mk "b" (VInt 2) (VInt 3)]
  ∧ DictValue.status (DictValue.mk "a" (VInt 1) (VInt 1))
    = DictValue.UNMODIFIED.
Proof.
  destruct (diff_parameters_spec {[ "a" := VInt 1 ]} {[ "a" := VStr "1" ]})
    as (_ & _ & Halike & _).
  destruct (diff_parameters_spec {[ "a" := VInt 1; "b" := VInt 2 ]}
              {[ "a" := VInt 1; "b" := VInt 3 ]})
    as (_ & _ & _ & Hfull).
  destruct Hfull as (_ & Hlist & Hin); [by vm_compute|].
  split_and!.
  - apply Halike. split; [by rewrite !dom_singleton_L|].
    intros k a b [_ <-]%lookup_singleton_Some [_ <-]%lookup_singleton_Some.
    reflexivity.
  - reflexivity.
  - rewrite Hlist. by vm_compute.
  - by apply (Hin "a" (VInt 1) (VInt 1)).
Defined.

(* ===================================================================== *)
(** * Further properties of variable resolution *)
(* ===================================================================== *)

(** X5.  What a [CFNParameter] holds.  The constructor takes text and lists as
    they are, turns a [bool] into ["true"] or ["false"] and an [int] into
    its decimal text, and raises [ValueError] for anything else; so the
    value of a [CFNParameter] is always text or a list. *)
Theorem CFNParameter_init_value (name : string) (v : value) :
  match v with
  | VStr _ | VList _ =>
      CFNParameter.init name v = Return (CFNParameter.mk name v)
  | VBool b =>
      CFNParameter.init name v
      = Return (CFNParameter.mk name (VStr (if b then "true" else "false")))
  | VInt n =>
      CFNParameter.init name v = Return (CFNParameter.mk name (VStr (pretty n)))
  | VNone | VObject _ _ _ =>
      CFNParameter.init name v
      = Raise (ValueError ("CFNParameter (" +:+ name
                           +:+ ") value must be one of str, int, bool, or list got: "
                           +:+ py_str v))
  end
  ∧ ∀ p, CFNParameter.init name v = Return p →
         CFNParameter.name p = name
         ∧ (isinstance (CFNParameter.val p) TStr = true
            ∨ isinstance (CFNParameter.val p) TList = true).
Proof.
  assert (∀ i mro r, isinstance (VObject i mro r) TStr = false
                     ∧ isinstance (VObject i mro r) TBool = false
                     ∧ isinstance (VObject i mro r) TList = false
                     ∧ isinstance (VObject i mro r) TInt = false) as Hobj.
  { intros i mro r. unfold isinstance. cbn [mro_of].
    split_and!; apply bool_decide_eq_false_2;
      intros [(c & ? & _)%list_elem_of_fmap|Hin%list_elem_of_singleton]%elem_of_app;
      done. }
  destruct v as [| [] | n | s | l | i mro r].
  1-6: split; [reflexivity|]; intros p Hp; try discriminate Hp.
  1-5: injection Hp as <-; split; [done|]; by auto.
  destruct (Hobj i mro r) as (Hs & Hb & Hl & Hi).
  assert (CFNParameter.init name (VObject i mro r)
          = Raise (ValueError ("CFNParameter (" +:+ name
                     +:+ ") value must be one of str, int, bool, or list got: "
                     +:+ py_str (VObject i mro r)))) as Hinit.
  { unfold CFNParameter.init, CFNParameter.acceptable_types.
    cbn [CFNParameter.init_loop]. by rewrite Hs, Hb, Hl, Hi. }
  split; [done|]. intros p. by rewrite Hinit.
Qed.

(** With a [CFNType] as the declared type, whatever [resolve_variable]
    returns is a [CFNParameter] named after the variable. *)
Lemma resolve_variable_CFNType_result var_name var_def pv blueprint_name pt r :
  VarDef.type var_def = Some (CFNType pt) →
  resolve_variable var_name var_def pv blueprint_name = Return r →
  ∃ p, r = CFNParam p ∧ CFNParameter.name p = var_name.
Proof.
  intros Ht. unfold resolve_variable, bind, Return, Raise. rewrite Ht.
  unfold validate_variable_type, CFNParameter.init, bind, Return, Raise.
  intros Hr. resolve_cases.
  all: unfold Return in *; simplify_eq; by eexists.
Qed.

(** X6.  A variable declared with a [CFNType] is never checked against
    [allowed_values]: resolution is what it is with the list left out, and
    what it returns is a [CFNParameter] named after the variable. *)
Theorem resolve_variable_CFNType_exempt var_name var_def pv blueprint_name pt :
  VarDef.type var_def = Some (CFNType pt) →
  resolve_variable var_name var_def pv blueprint_name
  = resolve_variable var_name (without_allowed_values var_def) pv
      blueprint_name
  ∧ ∀ r, resolve_variable var_name var_def pv blueprint_name = Return r →
         ∃ p, r = CFNParam p ∧ CFNParameter.name p = var_name.
Proof.
  intros Ht. split;
    [|intros r; by apply (resolve_variable_CFNType_result _ _ _ _ pt)].
  rewrite resolve_variable_allowed_values_last.
  destruct (resolve_variable var_name (without_allowed_values var_def) pv
              blueprint_name) as [exc|r] eqn:E; [done|].
  destruct (resolve_variable_CFNType_result _ (without_allowed_values var_def)
              _ _ pt r Ht E) as (p & -> & _).
  unfold bind, validate_allowed_values. cbn [is_CFNParameter].
  by rewrite orb_true_r.
Qed.

Lemma resolve_variable_CFNType_exempt_witness :
  resolve_variable "size"
    (VarDef.mk (Some (CFNType "Number")) None None (Some [VInt 1; VInt 2]))
    (Some (mkVariable "size" true (VInt 5))) "vpc"
  = Return (CFNParam (CFNParameter.mk "size" (VStr "5"))).
Proof.
  destruct (resolve_variable_CFNType_exempt "size"
              (VarDef.mk (Some (CFNType "Number")) None None
                 (Some [VInt 1; VInt 2]))
              (Some (mkVariable "size" true (VInt 5))) "vpc" "Number" eq_refl)
    as [H _].
  rewrite H. reflexivity.
Defined.

(** X7.  An empty [allowed_values] list restricts nothing: resolution is what it
    is with the list left out. *)
Theorem resolve_variable_empty_allowed_values var_name var_def pv blueprint_name :
  VarDef.allowed_values var_def = Some [] →
  resolve_variable var_name var_def pv blueprint_name
  = resolve_variable var_name (without_allowed_values var_def) pv
      blueprint_name.
Proof.
  intros Hl. rewrite resolve_variable_allowed_values_last, Hl.
  by destruct (resolve_variable var_name (without_allowed_values var_def) pv
                 blueprint_name).
Qed.

Lemma resolve_variable_empty_allowed_values_witness :
  resolve_variable "env"
    (VarDef.mk (Some (PyType TStr)) None None (Some []))
    (Some (mkVariable "env" true (VStr "c"))) "vpc"
  = Return (Plain (VStr "c")).
Proof.
  rewrite (resolve_variable_empty_allowed_values "env"
             (VarDef.mk (Some (PyType TStr)) None None (Some []))
             (Some (mkVariable "env" true (VStr "c"))) "vpc" eq_refl).
  reflexivity.
Defined.

(** X8.  The errors come in the order of the code.  A definition without a type
    raises [VariableTypeRequired] whatever is provided; with a type, a
    provided variable that is not resolved raises [UnresolvedVariable], even
    when the definition has a default, and before any validator runs. *)
Theorem resolve_variable_error_order var_name var_def pv blueprint_name :
  (VarDef.type var_def = None →
   resolve_variable var_name var_def pv blueprint_name
   = Raise (VariableTypeRequired blueprint_name var_name))
  ∧ (∀ p, is_Some (VarDef.type var_def) → pv = Some p → resolved p = false →
       resolve_variable var_name var_def pv blueprint_name
       = Raise (UnresolvedVariable blueprint_name p)).
Proof.
  split.
  - intros Ht. unfold resolve_variable. by rewrite Ht.
  - intros p [ty Ht] -> Hr. unfold resolve_variable. by rewrite Ht, Hr.
Qed.

Lemma resolve_variable_error_order_witness :
  resolve_variable "count"
    (VarDef.mk (Some (PyType TInt)) (Some (VInt 1)) (Some positive_validator)
       None)
    (Some (mkVariable "count" false (VInt 3))) "vpc"
  = Raise (UnresolvedVariable "vpc" (mkVariable "count" false (VInt 3))).
Proof.
  destruct (resolve_variable_error_order "count"
              (VarDef.mk (Some (PyType TInt)) (Some (VInt 1))
                 (Some positive_validator) None)
              (Some (mkVariable "count" false (VInt 3))) "vpc") as [_ H].
  apply H; [by eexists|reflexivity|reflexivity].
Defined.

(** X9.  An exception of the validator is wrapped in a [ValidatorError] that
    carries the name of the variable, the name of the validator, the value
    the validator was given and the exception; neither the type check nor
    the allowed-values check runs. *)
Theorem resolve_variable_validator_error var_name var_def pv blueprint_name
    f x exc :
  is_Some (VarDef.type var_def) →
  input_value var_def pv = Some x →
  VarDef.validator var_def = Some f →
  Validator.call f x = Raise exc →
  is_Exception exc = true →
  resolve_variable var_name var_def pv blueprint_name
  = Raise (ValidatorError var_name (Validator.name f) x exc).
Proof.
  intros [ty Ht] Hx Hf Hcall Hexc.
  unfold resolve_variable, bind, Return, Raise. rewrite Ht, Hf.
  unfold input_value in Hx.
  destruct pv as [p|]; [destruct (resolved p)|]; simplify_eq/=.
  all: rewrite ?Hx; cbn [negb]; rewrite Hcall; unfold Raise; by rewrite Hexc.
Qed.

Lemma resolve_variable_validator_error_witness :
  resolve_variable "count"
    (VarDef.mk (Some (PyType TInt)) None (Some positive_validator) None)
    (Some (mkVariable "count" true (VInt (-3)))) "vpc"
  = Raise (ValidatorError "count" "positive" (VInt (-3))
             (ValueError "not positive")).
Proof.
  apply (resolve_variable_validator_error "count"
           (VarDef.mk (Some (PyType TInt)) None (Some positive_validator) None)
           (Some (mkVariable "count" true (VInt (-3)))) "vpc"
           positive_validator (VInt (-3)) (ValueError "not positive"));
    (by eexists) || reflexivity.
Defined.

(** X10.  With a [TroposphereType] as the declared type, the validated value goes
    to [create].  An exception of [create] is wrapped in a [ValidatorError]
    that names [<resource_name>.create] and carries the value given to
    [create]; what [create] returns is what is checked against
    [allowed_values] and returned. *)
Theorem resolve_variable_TroposphereType var_name var_def pv blueprint_name
    resource_name create x v :
  VarDef.type var_def = Some (TroposphereType resource_name create) →
  input_value var_def pv = Some x →
  Validator.call (validator_of var_def) x = Return v →
  resolve_variable var_name var_def pv blueprint_name
  = match create v with
    | inl exc =>
        Raise (if is_Exception exc
               then ValidatorError var_name (resource_name +:+ ".create") v exc
               else exc)
    | inr created =>
        if validate_allowed_values (VarDef.allowed_values var_def)
             (Plain created)
        then Return (Plain created)
        else Raise (ValueError (invalid_value_message var_name blueprint_name
                                  (Plain created)
                                  (VarDef.allowed_values var_def)))
    end.
Proof.
  intros Ht Hx Hcall.
  unfold resolve_variable, bind, Return, Raise. rewrite Ht.
  fold (validator_of var_def). unfold input_value in Hx.
  destruct pv as [p|]; [destruct (resolved p)|]; simplify_eq/=.
  all: rewrite ?Hx; cbn [negb]; rewrite Hcall.
  all: unfold Return, validate_variable_type, Raise, Return.
  all: destruct (create v) as [exc|created]; [by destruct (is_Exception exc)|].
  all: by destruct (validate_allowed_values _ _).
Qed.

Lemma resolve_variable_TroposphereType_witness :
  resolve_variable "bucket" (VarDef.mk (Some bucket_type) None None None)
    (Some (mkVariable "bucket" true (VInt 7))) "site"
  = Raise (ValidatorError "bucket" "Bucket.create" (VInt 7)
             (PyException "TypeError" "expected a name")).
Proof.
  rewrite (resolve_variable_TroposphereType "bucket"
             (VarDef.mk (Some bucket_type) None None None)
             (Some (mkVariable "bucket" true (VInt 7))) "site"
             "Bucket" _ (VInt 7) (VInt 7) eq_refl eq_refl eq_refl).
  reflexivity.
Defined.

(* ===================================================================== *)
(** * Properties of the blueprint's variables *)
(* ===================================================================== *)

Section blueprint.

Implicit Types (items : list (string * VarDef.t))
  (vars : gmap string Variable_) (acc m : gmap string rvalue).

Lemma resolve_loop_app blueprint_name vars pre post acc :
  Blueprint.resolve_loop blueprint_name vars (pre ++ post) acc
  = match Blueprint.resolve_loop blueprint_name vars pre acc with
    | (inr _, m) => Blueprint.resolve_loop blueprint_name vars post m
    | (inl exc, m) => (Raise exc, m)
    end.
Proof.
  revert acc. induction pre as [|[k def] pre IH]; intros acc; [done|].
  cbn [app Blueprint.resolve_loop].
  destruct (resolve_variable k def (vars !! k) blueprint_name); [done|].
  apply IH.
Qed.

(** What the loop leaves when it ends without an exception. *)
Lemma resolve_loop_success blueprint_name vars items acc m :
  Blueprint.resolve_loop blueprint_name vars items acc = (Return tt, m) →
  dom m = dom acc ∪ list_to_set items.*1
  ∧ (∀ k, k ∉ items.*1 → m !! k = acc !! k)
  ∧ (NoDup items.*1 →
     ∀ k def, (k, def) ∈ items →
       ∃ v, m !! k = Some v
            ∧ resolve_variable k def (vars !! k) blueprint_name = Return v).
Proof.
  revert acc. induction items as [|[k0 def0] items IH]; intros acc Hloop.
  - cbn in Hloop. injection Hloop as <-.
    split_and!; [set_solver|done|]. intros _ k def Hin. by apply elem_of_nil in Hin.
  - cbn [Blueprint.resolve_loop] in Hloop.
    destruct (resolve_variable k0 def0 (vars !! k0) blueprint_name)
      as [exc|v0] eqn:E; [done|].
    destruct (IH _ Hloop) as (Hdom & Hother & Hin).
    split_and!.
    + rewrite Hdom, dom_insert_L. cbn. set_solver.
    + intros k Hk. cbn in Hk. apply not_elem_of_cons in Hk as [Hne Hk].
      by rewrite (Hother _ Hk), lookup_insert_ne.
    + intros Hnd k def Hkd. cbn in Hnd. apply NoDup_cons in Hnd as [Hk0 Hnd].
      apply elem_of_cons in Hkd as [[= -> ->]|Hkd].
      * exists v0. split; [|done].
        by rewrite (Hother _ Hk0), lookup_insert_eq.
      * by apply Hin.
Qed.

(** The loop looks a provided variable up under the names of the
    definitions only. *)
Lemma resolve_loop_ext blueprint_name vars vars' items acc :
  (∀ k, k ∈ items.*1 → vars !! k = vars' !! k) →
  Blueprint.resolve_loop blueprint_name vars items acc
  = Blueprint.resolve_loop blueprint_name vars' items acc.
Proof.
  revert acc. induction items as [|[k def] items IH]; intros acc Hv; [done|].
  cbn [Blueprint.resolve_loop]. rewrite <- (Hv k) by (cbn; by left).
  destruct (resolve_variable k def (vars !! k) blueprint_name); [done|].
  apply IH. intros k' Hk'. apply Hv. cbn. by right.
Qed.

(** X11.  When [resolve_variables] ends without an exception, the blueprint has
    one resolved variable per definition: the result of [resolve_variable]
    for that definition and the variable provided under its name. *)
Theorem resolve_variables_success self provided self' :
  NoDup (Blueprint.VARIABLES self).*1 →
  Blueprint.resolve_variables self provided = (Return tt, self') →
  ∃ m, Blueprint.get_variables self' = Return m
    ∧ dom m = list_to_set (Blueprint.VARIABLES self).*1
    ∧ ∀ k def, (k, def) ∈ Blueprint.VARIABLES self →
        ∃ v, m !! k = Some v
             ∧ resolve_variable k def (Blueprint.variable_dict provided !! k)
                 (Blueprint.name self) = Return v.
Proof.
  intros Hnd. unfold Blueprint.resolve_variables, Blueprint.defined_variables.
  destruct (Blueprint.resolve_loop _ _ _ _) as [r m] eqn:Hloop.
  intros [= -> <-]. exists m.
  destruct (resolve_loop_success _ _ _ _ _ Hloop) as (Hdom & _ & Hin).
  split_and!; [done| |by apply Hin].
  rewrite Hdom, dom_empty_L. set_solver.
Qed.

(** X12.  When the resolution of a definition raises, [resolve_variables] raises
    the same exception and stops; the blueprint is left with the variables
    resolved up to there, and [get_variables] returns them. *)
Theorem resolve_variables_failure self provided pre k def post m exc :
  Blueprint.VARIABLES self = pre ++ (k, def) :: post →
  Blueprint.resolve_loop (Blueprint.name self)
    (Blueprint.variable_dict provided) pre ∅ = (Return tt, m) →
  resolve_variable k def (Blueprint.variable_dict provided !! k)
    (Blueprint.name self) = Raise exc →
  ∃ self', Blueprint.resolve_variables self provided = (Raise exc, self')
    ∧ Blueprint.get_variables self' = Return m
    ∧ dom m = list_to_set pre.*1.
Proof.
  intros Hvars Hpre Hfail.
  unfold Blueprint.resolve_variables, Blueprint.defined_variables.
  rewrite Hvars, resolve_loop_app, Hpre. unfold Return at 1.
  cbn [Blueprint.resolve_loop]. rewrite Hfail. unfold Raise at 1.
  eexists. split_and!; [done..|].
  destruct (resolve_loop_success _ _ _ _ _ Hpre) as (Hdom & _).
  rewrite Hdom, dom_empty_L. set_solver.
Qed.

(** A provided variable whose name is not [k] leaves what the dictionary
    holds at [k]; so dropping such variables changes nothing there. *)
Lemma variable_dict_filter (P : Variable_ → Prop) `{!∀ var, Decision (P var)}
    (provided : list Variable_) vars vars' k :
  (∀ var, variable_name var = k → P var) →
  vars !! k = vars' !! k →
  foldl (λ (d : gmap string Variable_) var, <[variable_name var := var]> d)
    vars provided !! k
  = foldl (λ (d : gmap string Variable_) var, <[variable_name var := var]> d)
      vars' (filter P provided) !! k.
Proof.
  intros HP. revert vars vars'.
  induction provided as [|var provided IH]; intros vars vars' Hk; [done|].
  rewrite filter_cons. cbn [foldl].
  destruct (decide (P var)) as [Hvar|Hvar].
  - cbn [foldl]. apply IH.
    destruct (decide (variable_name var = k)) as [<-|Hne].
    + by rewrite !lookup_insert_eq.
    + by rewrite !lookup_insert_ne.
  - apply IH. rewrite lookup_insert_ne; [done|].
    intros Heq. by apply Hvar, HP.
Qed.

(** X13.  Provided variables whose names no definition has are ignored,
    wherever they stand among the others: [resolve_variables] does with the
    provided variables what it does with those of them that a definition
    names. *)
Theorem resolve_variables_ignores_undefined self provided :
  Blueprint.resolve_variables self provided
  = Blueprint.resolve_variables self
      (filter (λ var, variable_name var ∈ (Blueprint.VARIABLES self).*1)
         provided).
Proof.
  unfold Blueprint.resolve_variables.
  rewrite (resolve_loop_ext _ (Blueprint.variable_dict provided)
             (Blueprint.variable_dict
                (filter (λ var, variable_name var
                                ∈ (Blueprint.VARIABLES self).*1) provided)));
    [done|].
  intros k Hk. unfold Blueprint.variable_dict.
  apply variable_dict_filter; [|done].
  by intros var ->.
Qed.

(** The names [get_parameter_definitions] reports: those of the definitions
    whose type is a [CFNType]. *)
Lemma parameter_definitions_dom self k :
  k ∈ dom (Blueprint.get_parameter_definitions self)
  ↔ ∃ def pt, (k, def) ∈ Blueprint.VARIABLES self
              ∧ VarDef.type def = Some (CFNType pt).
Proof.
  unfold Blueprint.get_parameter_definitions, Blueprint.defined_variables.
  assert (∀ items (acc0 : gmap string Blueprint.cfn_attrs),
    k ∈ dom (foldl (λ output '(var_name, attrs),
                      match VarDef.type attrs with
                      | Some (CFNType parameter_type) =>
                          <[var_name := Blueprint.mk_cfn_attrs parameter_type
                                          (VarDef.default attrs)
                                          (VarDef.validator attrs)
                                          (VarDef.allowed_values attrs)]> output
                      | _ => output
                      end) acc0 items)
    ↔ k ∈ dom acc0
      ∨ ∃ def pt, (k, def) ∈ items ∧ VarDef.type def = Some (CFNType pt))
    as Hgen.
  { induction items as [|[k0 def0] items IH]; intros acc0.
    - cbn. split; [by left|]. intros [?|(? & ? & Hin & _)]; [done|].
      by apply elem_of_nil in Hin.
    - cbn [foldl]. rewrite IH. split.
      + intros [Hacc|(def & pt & Hin & Ht)].
        * destruct (VarDef.type def0) as [[pt0| |]|] eqn:Ht0; auto.
          rewrite dom_insert_L in Hacc.
          apply elem_of_union in Hacc as [->%elem_of_singleton|]; [|by left].
          right. exists def0, pt0. split; [by left|done].
        * right. exists def, pt. split; [by right|done].
      + intros [Hacc|(def & pt & Hin & Ht)].
        * left. destruct (VarDef.type def0) as [[pt0| |]|]; auto.
          rewrite dom_insert_L. set_solver.
        * apply elem_of_cons in Hin as [[= -> ->]|Hin].
          -- left. rewrite Ht, dom_insert_L. set_solver.
          -- right. eauto. }
  rewrite Hgen, dom_empty_L. split; [intros [?|?]; [set_solver|done]|by right].
Qed.

(** With a declared type that is not a [CFNType], whatever
    [resolve_variable] returns is not a [CFNParameter]. *)
Lemma resolve_variable_other_result var_name var_def pv blueprint_name ty r :
  VarDef.type var_def = Some ty →
  (∀ pt, ty ≠ CFNType pt) →
  resolve_variable var_name var_def pv blueprint_name = Return r →
  is_CFNParameter r = false.
Proof.
  intros Ht Hty. unfold resolve_variable, bind, Return, Raise. rewrite Ht.
  unfold validate_variable_type, bind, Return, Raise.
  destruct ty as [pt|rn create|t]; [by destruct (Hty pt)|..].
  all: intros Hr; resolve_cases.
  all: unfold Return in *; by simplify_eq.
Qed.

(** X14.  After [resolve_variables], the parameter values are those of the
    definitions [get_parameter_definitions] reports: the two have the same
    names. *)
Theorem parameter_values_match_definitions self provided self' :
  NoDup (Blueprint.VARIABLES self).*1 →
  Blueprint.resolve_variables self provided = (Return tt, self') →
  ∃ values, Blueprint.get_parameter_values self' = Return values
    ∧ dom values = dom (Blueprint.get_parameter_definitions self).
Proof.
  intros Hnd. unfold Blueprint.resolve_variables, Blueprint.defined_variables.
  destruct (Blueprint.resolve_loop _ _ _ _) as [r m] eqn:Hloop.
  intros [= -> <-].
  destruct (resolve_loop_success _ _ _ _ _ Hloop) as (Hdom & _ & Hin).
  specialize (Hin Hnd).
  eexists. split; [reflexivity|].
  apply set_eq. intros k.
  rewrite parameter_definitions_dom, elem_of_dom, lookup_omap.
  split.
  - intros [x Hx].
    destruct (m !! k) as [v|] eqn:Hm; [|done].
    assert (k ∈ dom m) as Hk by (apply elem_of_dom; eauto).
    rewrite Hdom, dom_empty_L in Hk.
    assert (k ∈ (Blueprint.VARIABLES self).*1) as Hk' by set_solver.
    apply list_elem_of_fmap in Hk' as ([k' def] & -> & Hkd).
    destruct (Hin _ _ Hkd) as (v' & Hv' & Hres).
    cbn in Hm. rewrite Hm in Hv'. injection Hv' as <-.
    destruct (VarDef.type def) as [ty|] eqn:Ht.
    + destruct ty as [pt|rn create|t]; [by eauto|..].
      all: pose proof (resolve_variable_other_result _ _ _ _ _ _ Ht
                         ltac:(done) Hres) as Hplain.
      all: by destruct v.
    + unfold resolve_variable in Hres. by rewrite Ht in Hres.
  - intros (def & pt & Hkd & Ht).
    destruct (Hin _ _ Hkd) as (v & Hv & Hres).
    destruct (resolve_variable_CFNType_result _ _ _ _ _ _ Ht Hres)
      as (p & -> & _).
    rewrite Hv. by eexists.
Qed.

End blueprint.

Lemma resolve_variables_success_witness :
  ∃ m, Blueprint.get_variables
         (Blueprint.resolve_variables vpc_blueprint
            [mkVariable "env" true (VStr "dev")]).2 = Return m
    ∧ m !! "size" = Some (CFNParam (CFNParameter.mk "size" (VStr "1"))).
Proof.
  destruct (resolve_variables_success vpc_blueprint
              [mkVariable "env" true (VStr "dev")]
              (Blueprint.resolve_variables vpc_blueprint
                 [mkVariable "env" true (VStr "dev")]).2)
    as (m & Hm & _ & Hin).
  - cbn. repeat constructor; set_solver.
  - by vm_compute.
  - exists m. split; [done|].
    destruct (Hin "size"
                (VarDef.mk (Some (CFNType "Number")) (Some (VInt 1)) None None))
      as (v & Hv & Hres).
    { cbn. set_solver. }
    rewrite Hv. f_equal. vm_compute in Hres. by injection Hres as <-.
Defined.

Lemma resolve_variables_failure_witness :
  ∃ self', Blueprint.resolve_variables vpc_blueprint [] = 
           (Raise (MissingVariable "vpc" (inl "env")), self')
    ∧ Blueprint.get_variables self' = Return ∅.
Proof.
  destruct (resolve_variables_failure vpc_blueprint [] [] "env"
              (VarDef.mk (Some (PyType TStr)) None None None)
              [("size", VarDef.mk (Some (CFNType "Number")) (Some (VInt 1))
                          None None)]
              ∅ (MissingVariable "vpc" (inl "env")))
    as (self' & Hres & Hget & _); [reflexivity..|].
  by exists self'.
Defined.

Lemma parameter_values_match_definitions_witness :
  ∃ values,
    Blueprint.get_parameter_values
      (Blueprint.resolve_variables vpc_blueprint
         [mkVariable "env" true (VStr "dev")]).2 = Return values
    ∧ dom values = dom (Blueprint.get_parameter_definitions vpc_blueprint).
Proof.
  apply (parameter_values_match_definitions vpc_blueprint
           [mkVariable "env" true (VStr "dev")]).
  - cbn. repeat constructor; set_solver.
  - by vm_compute.
Defined.

(* ===================================================================== *)
(** * More properties of the user data *)
(* ===================================================================== *)

Section templating_more.

Implicit Types (s t rest : string) (mapping : gmap string value).

(** The scan raises a [ValueError] for an invalid placeholder or a
    [KeyError] for a name the mapping does not have, and nothing else. *)
Lemma substitute_go_raises template mapping skip i s exc :
  Template.substitute_go template mapping skip i s = Raise exc →
  (∃ j, exc = ValueError (Template.invalid_message template j))
  ∨ (∃ name, exc = KeyError name ∧ mapping !! name = None).
Proof.
  revert skip i exc. induction s as [|c rest IH]; intros skip i exc; [done|].
  destruct skip as [|skip']; [|by apply IH].
  destruct (Ascii.eqb c "$") eqn:Hc.
  - apply Ascii.eqb_eq in Hc as ->. rewrite substitute_go_delimiter.
    destruct (Template.match_after_delimiter rest) as [|n|n|].
    + destruct (Template.substitute_go _ _ 1 _ rest) as [e|r] eqn:Hr; [|done].
      intros [= <-]. by eapply IH.
    + destruct (mapping !! n) as [v|] eqn:Hn.
      * destruct (Template.substitute_go _ _ _ _ rest) as [e|r] eqn:Hr; [|done].
        intros [= <-]. by eapply IH.
      * intros [= <-]. right. by exists n.
    + destruct (mapping !! n) as [v|] eqn:Hn.
      * destruct (Template.substitute_go _ _ _ _ rest) as [e|r] eqn:Hr; [|done].
        intros [= <-]. by eapply IH.
      * intros [= <-]. right. by exists n.
    + intros [= <-]. left. by eexists.
  - cbn [Template.substitute_go]. rewrite Hc.
    destruct (Template.substitute_go _ _ 0 _ rest) as [e|r] eqn:Hr; [|done].
    intros [= <-]. by eapply IH.
Qed.

(** A scan that succeeds succeeds alike with a larger mapping. *)
Lemma substitute_go_weaken template mapping mapping' skip i s res :
  mapping ⊆ mapping' →
  Template.substitute_go template mapping skip i s = Return res →
  Template.substitute_go template mapping' skip i s = Return res.
Proof.
  intros Hsub. revert skip i res.
  induction s as [|c rest IH]; intros skip i res; [done|].
  destruct skip as [|skip']; [|by apply IH].
  destruct (Ascii.eqb c "$") eqn:Hc.
  - apply Ascii.eqb_eq in Hc as ->. rewrite !substitute_go_delimiter.
    destruct (Template.match_after_delimiter rest) as [|n|n|].
    + destruct (Template.substitute_go _ mapping 1 _ rest) as [e|r] eqn:Hr;
        [done|].
      by rewrite (IH _ _ _ Hr).
    + destruct (mapping !! n) as [v|] eqn:Hn; [|done].
      rewrite (lookup_weaken _ _ _ _ Hn Hsub).
      destruct (Template.substitute_go _ mapping _ _ rest) as [e|r] eqn:Hr;
        [done|].
      by rewrite (IH _ _ _ Hr).
    + destruct (mapping !! n) as [v|] eqn:Hn; [|done].
      rewrite (lookup_weaken _ _ _ _ Hn Hsub).
      destruct (Template.substitute_go _ mapping _ _ rest) as [e|r] eqn:Hr;
        [done|].
      by rewrite (IH _ _ _ Hr).
    + done.
  - cbn [Template.substitute_go]. rewrite Hc.
    destruct (Template.substitute_go _ mapping 0 _ rest) as [e|r] eqn:Hr;
      [done|].
    by rewrite (IH _ _ _ Hr).
Qed.

(** The scan of a text whose delimiters are doubled gives the text back. *)
Lemma substitute_go_escaped template mapping i text :
  Template.substitute_go template mapping 0 i (escape_delimiters text)
  = Return text.
Proof.
  revert i. induction text as [|c text IH]; intros i; [done|].
  cbn [escape_delimiters]. destruct (Ascii.eqb c "$") eqn:Hc.
  - apply Ascii.eqb_eq in Hc as ->. rewrite substitute_go_delimiter.
    change (Template.match_after_delimiter
              (String "$" (escape_delimiters text))) with Template.Escaped.
    cbn [Template.substitute_go]. by rewrite IH.
  - cbn [Template.substitute_go]. by rewrite Hc, IH.
Qed.

(** Text without a delimiter is returned as it is. *)
Lemma substitute_go_plain template mapping i s :
  string_contains "$" s = false →
  Template.substitute_go template mapping 0 i s = Return s.
Proof.
  intros Hs. rewrite <- (string_app_nil_r s) at 1.
  rewrite (substitute_go_literal _ _ _ _ _ Hs). cbn.
  by rewrite string_app_nil_r.
Qed.

Lemma span_id_app n rest :
  all_id_chars n = true →
  starts_with_id_char rest = false →
  Template.span_id (n +:+ rest) = n.
Proof.
  intros Hn Hrest. induction n as [|c n IH].
  - rewrite string_app_nil_l. destruct rest as [|c rest]; [done|].
    cbn in Hrest |- *. by rewrite Hrest.
  - change (Template.is_id_char c && all_id_chars n = true) in Hn.
    apply andb_true_iff in Hn as [Hc Hn].
    rewrite string_app_cons. cbn [Template.span_id]. by rewrite Hc, IH.
Qed.

(** A name followed by something that is no identifier character matches
    the unbraced alternative. *)
Lemma match_after_delimiter_named n rest :
  valid_name n = true →
  starts_with_id_char rest = false →
  Template.match_after_delimiter (n +:+ rest) = Template.Named n.
Proof.
  destruct n as [|c n]; [done|]. intros [Hc Hn]%andb_true_iff Hrest.
  rewrite string_app_cons. unfold Template.match_after_delimiter.
  destruct (Ascii.eqb c "$") eqn:Hd.
  { apply Ascii.eqb_eq in Hd as ->. done. }
  rewrite Hc, <- string_app_cons. by rewrite span_id_app.
Qed.

End templating_more.

Section template_readings.

Implicit Types (s rest after : string) (variables : gmap string rvalue).

(** What is substituted for a variable is its text. *)
Lemma user_data_value_text (v : rvalue) :
  py_str (user_data_value v) = variable_text v.
Proof. by destruct v. Qed.

(** An escape gives one delimiter. *)
Lemma substitute_go_escape template mapping i rest :
  Template.substitute_go template mapping 0 i ("$$" +:+ rest)
  = let! r := Template.substitute_go template mapping 0 (i + 2) rest in
    Return ("$" +:+ r).
Proof.
  change ("$$" +:+ rest) with (String "$" (String "$" rest)).
  rewrite substitute_go_delimiter.
  change (Template.match_after_delimiter (String "$" rest))
    with Template.Escaped.
  cbn [Template.substitute_go].
  by replace (S (S i)) with (i + 2)%nat by lia.
Qed.

(** A placeholder without braces whose variable is there. *)
Lemma substitute_go_named template mapping n rest i v :
  valid_name n = true →
  starts_with_id_char rest = false →
  mapping !! n = Some v →
  Template.substitute_go template mapping 0 i ("$" +:+ n +:+ rest)
  = let! r := Template.substitute_go template mapping 0
                (i + (String.length n + 1)) rest in
    Return (py_str v +:+ r).
Proof.
  intros Hn Hrest Hv.
  change ("$" +:+ n +:+ rest) with (String "$" (n +:+ rest)).
  rewrite substitute_go_delimiter, (match_after_delimiter_named _ _ Hn Hrest).
  rewrite Hv. cbn [Template.token_length]. rewrite substitute_go_skip.
  by replace (S i + String.length n)%nat
    with (i + (String.length n + 1))%nat by lia.
Qed.

(** A placeholder without braces whose variable is missing. *)
Lemma substitute_go_named_missing template mapping n rest i :
  valid_name n = true →
  starts_with_id_char rest = false →
  mapping !! n = None →
  Template.substitute_go template mapping 0 i ("$" +:+ n +:+ rest)
  = Raise (KeyError n).
Proof.
  intros Hn Hrest Hv.
  change ("$" +:+ n +:+ rest) with (String "$" (n +:+ rest)).
  by rewrite substitute_go_delimiter, (match_after_delimiter_named _ _ Hn Hrest),
    Hv.
Qed.

(** The scan of pieces that are all fine: escapes and placeholders are
    replaced, and the scan goes on with what follows. *)
Lemma substitute_go_reading template variables segs after i :
  valid_segments segs after = true →
  forallb (segment_defined variables) segs = true →
  Template.substitute_go template (user_data_value <$> variables) 0 i
    (render segs +:+ after)
  = let! r := Template.substitute_go template (user_data_value <$> variables)
                0 (i + String.length (render segs)) after in
    Return (expand variables segs +:+ r).
Proof.
  revert i. induction segs as [|seg segs IH]; intros i Hvalid Hdef.
  - cbn [render expand String.length]. rewrite !string_app_nil_l.
    by rewrite Nat.add_0_r, bind_Return.
  - cbn [forallb] in Hdef. apply andb_true_iff in Hdef as [Hsegd Hdef].
    destruct seg as [text| |name|name]; cbn [valid_segments] in Hvalid;
      cbn [render expand].
    + apply andb_true_iff in Hvalid as [Htext Hvalid].
      rewrite string_app_assoc, substitute_go_literal
        by (by apply negb_true_iff).
      rewrite (IH _ Hvalid Hdef), string_app_length, Nat.add_assoc.
      destruct (Template.substitute_go _ _ _ _ after); [done|].
      cbn [bind Return]. by rewrite string_app_assoc.
    + rewrite string_app_assoc, substitute_go_escape, (IH _ Hvalid Hdef).
      rewrite string_app_length. cbn [String.length].
      replace (i + 2 + String.length (render segs))%nat
        with (i + (2 + String.length (render segs)))%nat by lia.
      destruct (Template.substitute_go _ _ _ _ after); [done|].
      cbn [bind Return]. by rewrite string_app_assoc.
    + apply andb_true_iff in Hvalid as [Hname Hvalid].
      apply bool_decide_eq_true in Hsegd as [v Hv].
      rewrite Hv. cbn [from_option].
      rewrite !string_app_assoc.
      rewrite (substitute_go_placeholder _ _ _ _ _ (user_data_value v))
        by (by rewrite ?lookup_fmap, ?Hv).
      rewrite (IH _ Hvalid Hdef), user_data_value_text.
      change ("${" +:+ name +:+ "}" +:+ render segs)
        with (String "$" (String "{" (name +:+ "}" +:+ render segs))).
      cbn [String.length]. rewrite !string_app_length. cbn [String.length].
      replace (i + (String.length name + 3) + String.length (render segs))%nat
        with (i + S (S (String.length name + S (String.length (render segs)))))%nat
        by lia.
      destruct (Template.substitute_go _ _ _ _ after); [done|].
      cbn [bind Return]. by rewrite string_app_assoc.
    + apply andb_true_iff in Hvalid as [[Hname Hnext]%andb_true_iff Hvalid].
      apply negb_true_iff in Hnext.
      apply bool_decide_eq_true in Hsegd as [v Hv].
      rewrite Hv. cbn [from_option].
      rewrite !string_app_assoc.
      rewrite (substitute_go_named _ _ _ _ _ (user_data_value v))
        by (by rewrite ?lookup_fmap, ?Hv).
      rewrite (IH _ Hvalid Hdef), user_data_value_text.
      change ("$" +:+ name +:+ render segs)
        with (String "$" (name +:+ render segs)).
      cbn [String.length]. rewrite !string_app_length.
      replace (i + (String.length name + 1) + String.length (render segs))%nat
        with (i + S (String.length name + String.length (render segs)))%nat
        by lia.
      destruct (Template.substitute_go _ _ _ _ after); [done|].
      cbn [bind Return]. by rewrite string_app_assoc.
Qed.

(** The parts of a text: its identifier characters at the head, and the
    rest. *)
Lemma span_id_split s :
  s = Template.span_id s
      +:+ Template.drop_string (String.length (Template.span_id s)) s.
Proof.
  induction s as [|c s IH]; [done|]. cbn [Template.span_id].
  destruct (Template.is_id_char c); [|done].
  rewrite string_app_cons. cbn [String.length Template.drop_string].
  by rewrite <- IH.
Qed.

Lemma all_id_chars_span_id s : all_id_chars (Template.span_id s) = true.
Proof.
  induction s as [|c s IH]; [done|]. cbn [Template.span_id].
  destruct (Template.is_id_char c) eqn:Hc; [|done].
  cbn [all_id_chars]. by rewrite Hc, IH.
Qed.

Lemma starts_with_id_char_drop s :
  starts_with_id_char
    (Template.drop_string (String.length (Template.span_id s)) s) = false.
Proof.
  induction s as [|c s IH]; [done|]. cbn [Template.span_id].
  destruct (Template.is_id_char c) eqn:Hc; [exact IH|exact Hc].
Qed.

Lemma closes_brace_drop s :
  closes_brace s
  = match Template.drop_string (String.length (Template.span_id s)) s with
    | String c _ => Ascii.eqb c "}"
    | EmptyString => false
    end.
Proof.
  induction s as [|c s IH]; [done|]. cbn [closes_brace Template.span_id].
  destruct (Template.is_id_char c); [exact IH|done].
Qed.

(** A text that starts like an identifier: the name and what follows. *)
Lemma name_split c s :
  Template.is_id_start c = true →
  ∃ name tail,
    String c s = name +:+ tail
    ∧ valid_name name = true
    ∧ starts_with_id_char tail = false
    ∧ (String.length tail ≤ String.length s)%nat.
Proof.
  intros Hc.
  exists (Template.span_id (String c s)),
    (Template.drop_string (String.length (Template.span_id (String c s)))
       (String c s)).
  split_and!.
  - apply span_id_split.
  - pose proof (all_id_chars_span_id (String c s)) as Hall.
    cbn [Template.span_id] in *. unfold Template.is_id_char in *.
    rewrite Hc in *. cbn [orb] in *. unfold valid_name. by rewrite Hc, Hall.
  - apply starts_with_id_char_drop.
  - cbn [Template.span_id]. unfold Template.is_id_char. rewrite Hc.
    cbn [orb String.length Template.drop_string].
    pose proof (span_id_split s) as Hs.
    apply (f_equal String.length) in Hs. rewrite string_app_length in Hs.
    lia.
Qed.

(** A text that starts like an identifier closed by a brace: the name and
    what follows the brace. *)
Lemma braced_split c s :
  Template.is_id_start c = true →
  closes_brace (String c s) = true →
  ∃ name tail,
    String c s = name +:+ String "}" tail
    ∧ valid_name name = true
    ∧ (String.length tail ≤ String.length s)%nat.
Proof.
  intros Hc Hb. rewrite closes_brace_drop in Hb.
  destruct (name_split c s Hc) as (_ & _ & _ & _).
  pose proof (span_id_split (String c s)) as Hsplit.
  pose proof (all_id_chars_span_id (String c s)) as Hall.
  assert (valid_name (Template.span_id (String c s)) = true) as Hname.
  { cbn [Template.span_id] in *. unfold Template.is_id_char in *.
    rewrite Hc in *. cbn [orb] in *. unfold valid_name. by rewrite Hc, Hall. }
  destruct (Template.drop_string _ _) as [|c' tail] eqn:Hdrop; [done|].
  apply Ascii.eqb_eq in Hb as ->.
  exists (Template.span_id (String c s)), tail. split_and!; [done..|].
  apply (f_equal String.length) in Hsplit.
  rewrite string_app_length in Hsplit. cbn [String.length] in Hsplit.
  destruct (Template.span_id (String c s)); [done|].
  cbn [String.length] in Hsplit. lia.
Qed.

(** The tokens of the model are the tokens of the vocabulary. *)
Lemma invalid_token_match rest :
  invalid_token rest = true →
  Template.match_after_delimiter rest = Template.Invalid.
Proof.
  destruct rest as [|c rest']; [done|].
  unfold invalid_token, Template.match_after_delimiter.
  intros [[Hd Hs]%andb_true_iff Hb]%andb_true_iff.
  apply negb_true_iff in Hd, Hs, Hb. rewrite Hd, Hs.
  destruct (Ascii.eqb c "{"); [|done]. cbn [andb] in Hb.
  destruct rest' as [|c' rest'']; [done|].
  destruct (Template.is_id_start c'); [|done]. cbn [andb] in Hb.
  rewrite closes_brace_drop in Hb. cbv zeta.
  destruct (Template.drop_string _ _) as [|c'' ?]; [done|]. by rewrite Hb.
Qed.

(** Every text has a reading. *)
Lemma reading_exists variables (n : nat) :
  ∀ raw, (String.length raw ≤ n)%nat →
         ∃ segs e, reading variables raw segs e.
Proof.
  induction n as [|n IH]; intros raw Hlen.
  { destruct raw; [|cbn in Hlen; lia]. by exists [], Complete. }
  destruct raw as [|c rest]; [by exists [], Complete|].
  cbn [String.length] in Hlen.
  destruct (Ascii.eqb c "$") eqn:Hc.
  2:{ destruct (IH rest ltac:(lia)) as (segs & e & -> & Hv & Hd & He).
      exists (Literal (String c "") :: segs), e.
      split_and!; [done| |done|done].
      cbn [valid_segments string_contains]. by rewrite Ascii.eqb_sym, Hc. }
  apply Ascii.eqb_eq in Hc as ->.
  destruct rest as [|c' rest']; [by exists [], (InvalidToken "")|].
  cbn [String.length] in Hlen.
  destruct (Ascii.eqb c' "$") eqn:Hc'.
  { apply Ascii.eqb_eq in Hc' as ->.
    destruct (IH rest' ltac:(lia)) as (segs & e & -> & Hv & Hd & He).
    by exists (Escape :: segs), e. }
  destruct (Template.is_id_start c') eqn:Hs.
  { destruct (name_split c' rest' Hs) as (name & tail & -> & Hname & Htail & Hl).
    destruct (variables !! name) as [v|] eqn:Hv.
    - destruct (IH tail ltac:(lia)) as (segs & e & Heq & Hvs & Hd & He).
      exists (Unbraced name :: segs), e. split_and!; [|  |  |done].
      + rewrite Heq. cbn [render]. by rewrite !string_app_assoc.
      + cbn [valid_segments]. by rewrite Hname, <- Heq, Htail, Hvs.
      + cbn [forallb segment_defined]. rewrite Hv, Hd.
        by rewrite bool_decide_eq_true_2.
    - exists [], (Undefined false name tail). split_and!; [done..|].
      cbn [valid_ending]. rewrite Hname, Htail.
      by rewrite bool_decide_eq_true_2. }
  destruct (Ascii.eqb c' "{"
            && match rest' with
               | String c'' _ => Template.is_id_start c''
               | EmptyString => false
               end
            && closes_brace rest') eqn:Hb.
  { apply andb_true_iff in Hb as [[Hbrace Hstart]%andb_true_iff Hclose].
    apply Ascii.eqb_eq in Hbrace as ->.
    destruct rest' as [|c'' rest'']; [done|].
    destruct (braced_split c'' rest'' Hstart Hclose)
      as (name & tail & -> & Hname & Hl).
    cbn [String.length] in Hlen.
    destruct (variables !! name) as [v|] eqn:Hv.
    - destruct (IH tail ltac:(lia)) as (segs & e & Heq & Hvs & Hd & He).
      exists (Placeholder name :: segs), e. split_and!; [|  |  |done].
      + rewrite Heq. cbn [render]. by rewrite !string_app_assoc.
      + cbn [valid_segments]. by rewrite Hname, Hvs.
      + cbn [forallb segment_defined]. rewrite Hv, Hd.
        by rewrite bool_decide_eq_true_2.
    - exists [], (Undefined true name tail). split_and!; [done..|].
      cbn [valid_ending]. rewrite Hname.
      by rewrite bool_decide_eq_true_2. }
  exists [], (InvalidToken (String c' rest')). split_and!; [done..|].
  cbn [valid_ending invalid_token]. by rewrite Hc', Hs, Hb.
Qed.

End template_readings.

(** C7.  Every text has a reading: pieces that are text without [$],
    escapes [$$] and placeholders [${name}] or [$name] naming variables,
    up to the end of the text or to the first placeholder that names no
    variable or to a [$] that starts no token.  Whatever the reading,
    [parse_user_data] does what the reading says: at the end of the text
    it returns the text with every placeholder replaced by the printed
    value of its variable, which for a [CFNParameter] is the value of the
    parameter; at a placeholder that names no variable it raises
    [MissingVariable]; at a [$] that starts no token it raises
    [InvalidUserdataPlaceholder]. *)
Theorem parse_user_data_spec (variables : gmap string rvalue)
    (blueprint_name : string) :
  (∀ raw, ∃ segs e, reading variables raw segs e)
  ∧ (∀ raw segs e,
       reading variables raw segs e →
       parse_user_data variables raw blueprint_name
       = outcome variables blueprint_name segs e).
Proof.
  split.
  - intros raw. by apply (reading_exists variables (String.length raw)).
  - intros raw segs e (-> & Hvalid & Hdef & He).
    unfold parse_user_data, Template.substitute.
    rewrite (substitute_go_reading _ _ _ _ _ Hvalid Hdef). cbn [Nat.add].
    destruct e as [|[] name rest|rest]; cbn [render_ending valid_ending] in *.
    + cbn. by rewrite string_app_nil_r.
    + apply andb_true_iff in He as [[Hname Hnone]%andb_true_iff _].
      apply bool_decide_eq_true in Hnone.
      rewrite substitute_go_missing; [done..|].
      by rewrite lookup_fmap, Hnone.
    + apply andb_true_iff in He as [[Hname Hnone]%andb_true_iff Hrest].
      apply bool_decide_eq_true in Hnone. apply negb_true_iff in Hrest.
      rewrite substitute_go_named_missing; [done..|].
      by rewrite lookup_fmap, Hnone.
    + change ("$" +:+ rest) with (String "$" rest).
      by rewrite substitute_go_invalid by (by apply invalid_token_match).
Qed.

Lemma parse_user_data_spec_witness :
  parse_user_data {[ "file" := Plain (VStr "test.txt") ]}
    "open file ${file}" "vpc"
  = Return "open file test.txt"
  ∧ parse_user_data
      {[ "size" := CFNParam (CFNParameter.mk "size" (VStr "2")) ]}
      "grow by ${size} GB for $$5" "vpc"
    = Return "grow by 2 GB for $5"
  ∧ parse_user_data {[ "file" := Plain (VStr "test.txt") ]}
      "open file ${file} as ${user}" "vpc"
    = Raise (MissingVariable "vpc" (inr (KeyError "user")))
  ∧ parse_user_data {[ "file" := Plain (VStr "test.txt") ]}
      "open file ${file} as ${100}" "vpc"
    = Raise (InvalidUserdataPlaceholder "vpc"
               "Invalid placeholder in string: line 1, col 22").
Proof.
  destruct (parse_user_data_spec {[ "file" := Plain (VStr "test.txt") ]} "vpc")
    as [_ Hfile].
  destruct (parse_user_data_spec
              {[ "size" := CFNParam (CFNParameter.mk "size" (VStr "2")) ]}
              "vpc") as [_ Hsize].
  split_and!.
  - apply (Hfile _ [Literal "open file "; Placeholder "file"] Complete).
    by vm_compute.
  - apply (Hsize _ [Literal "grow by "; Placeholder "size";
                    Literal " GB for "; Escape; Literal "5"] Complete).
    by vm_compute.
  - apply (Hfile _ [Literal "open file "; Placeholder "file"; Literal " as "]
             (Undefined true "user" "")).
    by vm_compute.
  - apply (Hfile _ [Literal "open file "; Placeholder "file"; Literal " as "]
             (InvalidToken "{100}")).
    by vm_compute.
Defined.

(** X15.  Whatever [parse_user_data] raises is an
    [InvalidUserdataPlaceholder] that carries the message of
    [string.Template] for some offset of the text, or a [MissingVariable]
    for a name that is not among the variables; both name the blueprint. *)
Theorem parse_user_data_raises (variables : gmap string rvalue)
    (raw_user_data blueprint_name : string) (exc : exn) :
  parse_user_data variables raw_user_data blueprint_name = Raise exc →
  (∃ i, exc = InvalidUserdataPlaceholder blueprint_name
                (Template.invalid_message raw_user_data i))
  ∨ (∃ name, exc = MissingVariable blueprint_name (inr (KeyError name))
             ∧ variables !! name = None).
Proof.
  unfold parse_user_data, Template.substitute.
  destruct (Template.substitute_go _ _ _ _ _) as [e|r] eqn:Hs; [|done].
  destruct (substitute_go_raises _ _ _ _ _ _ Hs)
    as [[j ->]|(name & -> & Hname)].
  - intros [= <-]. left. by exists j.
  - intros [= <-]. right. exists name. split; [done|].
    rewrite lookup_fmap in Hname. by destruct (variables !! name).
Qed.

Lemma parse_user_data_raises_witness :
  (∃ i, MissingVariable "vpc" (inr (KeyError "user"))
        = InvalidUserdataPlaceholder "vpc"
            (Template.invalid_message "run as $user" i))
  ∨ (∃ name, MissingVariable "vpc" (inr (KeyError "user"))
             = MissingVariable "vpc" (inr (KeyError name))
             ∧ ({[ "file" := Plain (VStr "test.txt") ]}
                  : gmap string rvalue) !! name = None).
Proof.
  apply (parse_user_data_raises {[ "file" := Plain (VStr "test.txt") ]}
           "run as $user" "vpc").
  reflexivity.
Defined.

(** X16.  Doubling every [$] of a text protects it: [parse_user_data]
    gives the text back, whatever the variables. *)
Theorem parse_user_data_escaped (variables : gmap string rvalue)
    (text blueprint_name : string) :
  parse_user_data variables (escape_delimiters text) blueprint_name
  = Return text.
Proof.
  unfold parse_user_data, Template.substitute.
  by rewrite substitute_go_escaped.
Qed.

(** X17.  Variables the text does not use are harmless: a text that
    [parse_user_data] renders with some variables is rendered alike with
    more of them. *)
Theorem parse_user_data_more_variables (variables variables' : gmap string rvalue)
    (raw_user_data blueprint_name res : string) :
  variables ⊆ variables' →
  parse_user_data variables raw_user_data blueprint_name = Return res →
  parse_user_data variables' raw_user_data blueprint_name = Return res.
Proof.
  intros Hsub. unfold parse_user_data, Template.substitute.
  destruct (Template.substitute_go _ (user_data_value <$> variables) _ _ _)
    as [e|r] eqn:Hs.
  { by destruct e. }
  intros [= <-].
  by rewrite (substitute_go_weaken _ _ (user_data_value <$> variables')
                _ _ _ _ (map_fmap_mono _ _ _ Hsub) Hs).
Qed.

Lemma parse_user_data_more_variables_witness :
  parse_user_data
    {[ "file" := Plain (VStr "test.txt"); "user" := Plain (VStr "root") ]}
    "open file ${file}" "vpc"
  = Return "open file test.txt".
Proof.
  apply (parse_user_data_more_variables
           {[ "file" := Plain (VStr "test.txt") ]}).
  - apply insert_mono, insert_subseteq. reflexivity.
  - reflexivity.
Defined.

(** X18.  The unbraced form [$name] is a placeholder too: a name that is
    followed by no identifier character is replaced by the printed value
    of its variable, which for a [CFNParameter] is the value of the
    parameter. *)
Theorem parse_user_data_unbraced (variables : gmap string rvalue)
    (pre name rest blueprint_name : string) (v : rvalue) :
  string_contains "$" pre = false →
  valid_name name = true →
  starts_with_id_char rest = false →
  string_contains "$" rest = false →
  variables !! name = Some v →
  parse_user_data variables (pre +:+ "$" +:+ name +:+ rest) blueprint_name
  = Return (pre +:+ variable_text v +:+ rest).
Proof.
  intros Hpre Hname Hrest Hrest' Hv.
  unfold parse_user_data, Template.substitute.
  rewrite (substitute_go_literal _ _ _ _ _ Hpre).
  rewrite (substitute_go_named _ _ _ _ _ (user_data_value v))
    by (by rewrite ?lookup_fmap, ?Hv).
  rewrite (substitute_go_plain _ _ _ _ Hrest'), user_data_value_text.
  done.
Qed.

Lemma parse_user_data_unbraced_witness :
  parse_user_data
    {[ "file" := Plain (VStr "test.txt");
       "size" := CFNParam (CFNParameter.mk "size" (VList [VInt 1; VInt 2])) ]}
    "open $file now" "vpc"
  = Return "open test.txt now"
  ∧ parse_user_data
      {[ "file" := Plain (VStr "test.txt");
         "size" := CFNParam (CFNParameter.mk "size" (VList [VInt 1; VInt 2])) ]}
      "sizes: $size." "vpc"
    = Return "sizes: [1, 2].".
Proof.
  split.
  - apply (parse_user_data_unbraced _ "open " "file" " now" "vpc"
             (Plain (VStr "test.txt"))); reflexivity.
  - apply (parse_user_data_unbraced _ "sizes: " "size" "." "vpc"
             (CFNParam (CFNParameter.mk "size" (VList [VInt 1; VInt 2]))));
      reflexivity.
Defined.

(* ===================================================================== *)
(** * More properties of hook execution *)
(* ===================================================================== *)

Section hooks_more.

Context {Provider : Type}.
Variable load_object_from_string : string → result (@Hooks.handler Provider).
Variable provider : Provider.

Local Abbreviation run_hook :=
  (Hooks.run_hook load_object_from_string provider).
Local Abbreviation run_hooks :=
  (Hooks.run_hooks load_object_from_string provider).
Local Abbreviation handle_hooks :=
  (Hooks.handle_hooks load_object_from_string).

Lemma run_hooks_disabled hooks st :
  Forall (λ hook, Hooks.enabled hook = false) hooks →
  run_hooks hooks st
  = (Return tt,
     Hooks.mkState
       (Hooks.log st ++ ((λ hook, Hooks.HookDisabled (Hooks.path hook)) <$> hooks))
       (Hooks.context st)).
Proof.
  intros Hall. revert st.
  induction Hall as [|hook hooks Hen _ IH]; intros st.
  - cbn. rewrite app_nil_r. by destruct st.
  - cbn [Hooks.run_hooks]. unfold Hooks.run_hook at 1. rewrite Hen.
    cbn [negb]. unfold Return at 1. rewrite IH. cbn.
    by rewrite <- app_assoc.
Qed.

(** X19.  Hooks that are all disabled are neither loaded nor called: the run
    returns, the context is as it was, and the log has one line for each
    hook after the line that lists them. *)
Theorem handle_hooks_disabled stage hooks st :
  hooks ≠ [] →
  Forall (λ hook, Hooks.enabled hook = false) hooks →
  handle_hooks stage hooks provider st
  = (Return tt,
     Hooks.mkState
       (Hooks.log st
        ++ (Hooks.ExecutingHooks stage (join ", " (map Hooks.path hooks))
            :: ((λ hook, Hooks.HookDisabled (Hooks.path hook)) <$> hooks)))
       (Hooks.context st)).
Proof.
  intros Hne Hall. destruct hooks as [|hook hooks]; [done|].
  unfold Hooks.handle_hooks. rewrite (run_hooks_disabled _ _ Hall).
  cbn. by rewrite <- app_assoc.
Qed.

(** X20.  What a handler raises that is no [Exception] (a [SystemExit], a
    [KeyboardInterrupt]) leaves [handle_hooks] even when the hook is
    optional, and nothing is logged for it. *)
Theorem handle_hooks_not_Exception stage pre hook post st st1 method exc ctx :
  Hooks.run_hooks load_object_from_string provider pre
    (hooks_start stage (pre ++ hook :: post) st) = (Return tt, st1) →
  Hooks.enabled hook = true →
  load_object_from_string (Hooks.path hook) = Return method →
  method (Hooks.context st1) provider (Hooks.kwargs_of hook) = (Raise exc, ctx) →
  is_Exception exc = false →
  handle_hooks stage (pre ++ hook :: post) provider st
  = (Raise exc, Hooks.mkState (Hooks.log st1) ctx).
Proof.
  intros Hpre Hen Hload Hcall Hexc.
  rewrite (handle_hooks_at _ _ _ _ _ _ _ _ Hpre).
  rewrite (run_hook_called _ _ _ _ _ Hen Hload), Hcall.
  unfold Raise at 1. by rewrite Hexc.
Qed.

(** X21.  A handler that cannot be loaded.  An [AttributeError] or an
    [ImportError] is logged; a required hook lets it out, an optional hook
    is skipped and the run goes on with the hooks after it.  Any other
    exception of the loader leaves [handle_hooks] as it is, logged nowhere,
    even when the hook is optional. *)
Theorem handle_hooks_load_failure stage pre hook post st st1 exc :
  Hooks.run_hooks load_object_from_string provider pre
    (hooks_start stage (pre ++ hook :: post) st) = (Return tt, st1) →
  Hooks.enabled hook = true →
  load_object_from_string (Hooks.path hook) = Raise exc →
  handle_hooks stage (pre ++ hook :: post) provider st
  = if is_load_error exc then
      if Hooks.required hook then
        (Raise exc, Hooks.add_log (Hooks.UnableToLoad (Hooks.path hook) exc) st1)
      else
        run_hooks post
          (Hooks.add_log (Hooks.UnableToLoad (Hooks.path hook) exc) st1)
    else (Raise exc, st1).
Proof.
  intros Hpre Hen Hload.
  rewrite (handle_hooks_at _ _ _ _ _ _ _ _ Hpre).
  unfold Hooks.run_hook. rewrite Hen, Hload. cbn [negb]. unfold Raise at 1.
  destruct exc; cbn [is_load_error]; try done.
  all: by destruct (Hooks.required hook).
Qed.

Lemma run_hook_optional hook st :
  Hooks.required hook = false →
  (∀ exc, load_object_from_string (Hooks.path hook) = Raise exc →
          is_load_error exc = true) →
  (∀ method ctx exc ctx',
     load_object_from_string (Hooks.path hook) = Return method →
     method ctx provider (Hooks.kwargs_of hook) = (Raise exc, ctx') →
     is_Exception exc = true) →
  (run_hook hook st).1 = Return tt.
Proof.
  intros Hreq Hload Hcall. unfold Hooks.run_hook. rewrite Hreq.
  destruct (Hooks.enabled hook); [|done]. cbn [negb].
  destruct (load_object_from_string (Hooks.path hook)) as [exc|method] eqn:Hl.
  - specialize (Hload exc eq_refl). by destruct exc.
  - destruct (method _ _ _) as [[exc|result] ctx] eqn:Hm.
    + by rewrite (Hcall _ _ _ _ eq_refl Hm).
    + destruct (negb (Hooks.truthy result)); [done|].
      destruct (Hooks.is_Mapping result); [|done].
      by destruct (Hooks.data_key_set _).
Qed.

(** X22.  Optional hooks do not stop the run: when no hook is required, the
    loader fails with nothing but [AttributeError] and [ImportError], and
    the handlers raise nothing but [Exception]s, [handle_hooks] returns. *)
Theorem handle_hooks_optional stage hooks st :
  Forall (λ hook, Hooks.required hook = false) hooks →
  (∀ path exc, load_object_from_string path = Raise exc →
               is_load_error exc = true) →
  (∀ path method ctx kwargs exc ctx',
     load_object_from_string path = Return method →
     method ctx provider kwargs = (Raise exc, ctx') →
     is_Exception exc = true) →
  (handle_hooks stage hooks provider st).1 = Return tt.
Proof.
  intros Hall Hload Hcall.
  assert (∀ st0, (run_hooks hooks st0).1 = Return tt) as Hrun.
  { induction Hall as [|hook hooks Hreq _ IH]; intros st0; [done|].
    cbn [Hooks.run_hooks].
    pose proof (run_hook_optional hook st0 Hreq (Hload _)
                  (λ method ctx exc ctx', Hcall _ method ctx _ exc ctx'))
      as Hhook.
    destruct (run_hook hook st0) as [[exc|[]] st1]; [done|]. apply IH. }
  destruct hooks as [|hook hooks]; [done|]. apply Hrun.
Qed.

Lemma run_hook_hook_data hook st k :
  (∀ path method ctx kwargs,
     load_object_from_string path = Return method →
     (method ctx provider kwargs).2 = ctx) →
  k ∉ data_keys [hook] →
  Hooks.hook_data (Hooks.context (run_hook hook st).2) !! k
  = Hooks.hook_data (Hooks.context st) !! k.
Proof.
  intros Hpure Hk. unfold Hooks.run_hook.
  unfold data_keys in Hk. cbn [omap list_omap] in Hk.
  destruct (Hooks.enabled hook); [|done]. cbn [negb].
  destruct (load_object_from_string (Hooks.path hook)) as [exc|method] eqn:Hl.
  - destruct exc; try done. all: by destruct (Hooks.required hook).
  - pose proof (Hpure _ _ (Hooks.context st) (Hooks.kwargs_of hook) Hl) as Hctx.
    destruct (method _ _ _) as [[exc|result] ctx]; cbn in Hctx; subst ctx.
    + destruct (is_Exception exc); [|done]. by destruct (Hooks.required hook).
    + destruct (negb (Hooks.truthy result)).
      { by destruct (Hooks.required hook). }
      destruct (Hooks.is_Mapping result); [|done].
      destruct (Hooks.data_key_set (Hooks.data_key hook)) as [k'|]; [|done].
      cbn. apply lookup_insert_ne. set_solver.
Qed.

(** X23.  The hook data change at the data keys of the enabled hooks only:
    when the handlers leave the context alone, every other key holds after
    the run what it held before, however the run ends. *)
Theorem handle_hooks_hook_data stage hooks st k :
  (∀ path method ctx kwargs,
     load_object_from_string path = Return method →
     (method ctx provider kwargs).2 = ctx) →
  k ∉ data_keys hooks →
  Hooks.hook_data (Hooks.context (handle_hooks stage hooks provider st).2) !! k
  = Hooks.hook_data (Hooks.context st) !! k.
Proof.
  intros Hpure Hk.
  assert (∀ st0, Hooks.hook_data (Hooks.context (run_hooks hooks st0).2) !! k
                 = Hooks.hook_data (Hooks.context st0) !! k) as Hrun.
  { induction hooks as [|hook hooks IH]; intros st0; [done|].
    cbn [Hooks.run_hooks].
    assert ((k ∉ data_keys [hook]) ∧ (k ∉ data_keys hooks)) as [Hk1 Hk2].
    { change (hook :: hooks) with ([hook] ++ hooks) in Hk.
      unfold data_keys in *. rewrite omap_app in Hk. set_solver. }
    pose proof (run_hook_hook_data hook st0 k Hpure Hk1) as Hhook.
    destruct (run_hook hook st0) as [[exc|[]] st1]; [done|].
    cbn in Hhook. by rewrite (IH Hk2). }
  destruct hooks as [|hook hooks]; [done|].
  unfold Hooks.handle_hooks. by rewrite Hrun.
Qed.

End hooks_more.

Lemma handle_hooks_disabled_witness :
  Hooks.handle_hooks (λ _, Return returns_False) "pre_build"
    [Hooks.mkHook "hooks.check" None true None false] tt empty_state
  = (Return tt,
     Hooks.mkState
       [Hooks.ExecutingHooks "pre_build" "hooks.check";
        Hooks.HookDisabled "hooks.check"]
       (Hooks.mkContext ∅)).
Proof.
  apply (handle_hooks_disabled (λ _, Return returns_False) tt "pre_build"
           [Hooks.mkHook "hooks.check" None true None false] empty_state).
  - done.
  - by repeat constructor.
Defined.

Lemma handle_hooks_not_Exception_witness :
  Hooks.handle_hooks (λ _, Return interrupted) "pre_build"
    [Hooks.mkHook "hooks.wait" None false None true] tt empty_state
  = (Raise KeyboardInterrupt,
     Hooks.mkState [Hooks.ExecutingHooks "pre_build" "hooks.wait"]
       (Hooks.mkContext ∅)).
Proof.
  pose proof (handle_hooks_not_Exception (λ _, Return interrupted) tt
                "pre_build" []
                (Hooks.mkHook "hooks.wait" None false None true) []
                empty_state _ interrupted KeyboardInterrupt _
                eq_refl eq_refl eq_refl eq_refl eq_refl) as H.
  exact H.
Defined.

Lemma handle_hooks_load_failure_witness :
  Hooks.handle_hooks (Provider:=unit)
    (λ _, Raise (ImportError "No module named hooks"))
    "pre_build" [Hooks.mkHook "hooks.check" None false None true] tt
    empty_state
  = (Return tt,
     Hooks.mkState
       [Hooks.ExecutingHooks "pre_build" "hooks.check";
        Hooks.UnableToLoad "hooks.check" (ImportError "No module named hooks")]
       (Hooks.mkContext ∅)).
Proof.
  pose proof (handle_hooks_load_failure (Provider:=unit)
                (λ _, Raise (ImportError "No module named hooks")) tt
                "pre_build" []
                (Hooks.mkHook "hooks.check" None false None true) []
                empty_state _ (ImportError "No module named hooks")
                eq_refl eq_refl eq_refl) as H.
  exact H.
Defined.

Lemma handle_hooks_optional_witness :
  (Hooks.handle_hooks (λ _, Return returns_False) "pre_build"
     [Hooks.mkHook "hooks.check" None false None true] tt empty_state).1
  = Return tt.
Proof.
  apply (handle_hooks_optional (λ _, Return returns_False) tt "pre_build"
           [Hooks.mkHook "hooks.check" None false None true] empty_state).
  - by repeat constructor.
  - intros path exc Hload. discriminate Hload.
  - intros path method ctx kwargs exc ctx' [= <-] Hcall. discriminate Hcall.
Defined.

Lemma handle_hooks_hook_data_witness :
  Hooks.hook_data
    (Hooks.context
       (Hooks.handle_hooks (λ _, Return returns_mapping) "pre_build"
          [Hooks.mkHook "hooks.vpc" (Some "vpc") true None true] tt
          (Hooks.mkState []
             (Hooks.mkContext
                {[ "dns" := Hooks.RValue (VStr "zone") ]}))).2) !! "dns"
  = Some (Hooks.RValue (VStr "zone")).
Proof.
  rewrite (handle_hooks_hook_data (λ _, Return returns_mapping) tt "pre_build"
             [Hooks.mkHook "hooks.vpc" (Some "vpc") true None true]
             (Hooks.mkState []
                (Hooks.mkContext {[ "dns" := Hooks.RValue (VStr "zone") ]}))
             "dns").
  - reflexivity.
  - by intros path method ctx kwargs [= <-].
  - cbn. set_solver.
Defined.

(* ===================================================================== *)
(** * More properties of the diff action *)
(* ===================================================================== *)

Section diff_action_more.

Context {Stack Provider Tags Parameters TemplateBody Outputs RunContext : Type}.

Implicit Types
  (self : @DiffAction.collaborators Stack Provider Tags Parameters
            TemplateBody Outputs RunContext).

(** X24.  When the stack is to be submitted and updated and the steps before the
    provider call succeed, the provider call decides.  Outputs are set on
    the resolved stack and [COMPLETE] is returned, nothing logged.  An
    exception other than [StackDidNotChange] leaves [_diff_stack], with no
    outputs set and nothing logged. *)
Theorem diff_stack_provider_outcome self (context : RunContext) stack log
    provider tags stack' parameters body outcome :
  DiffAction.cancel_wait self = false →
  DiffAction.should_submit self stack = true →
  DiffAction.should_update self stack = true →
  DiffAction.build_provider self stack = Return provider →
  DiffAction.build_stack_tags self stack = Return tags →
  DiffAction.stack_resolve self stack context provider = Return stack' →
  DiffAction.build_parameters self stack' = Return parameters →
  DiffAction.template self stack' = Return body →
  DiffAction.get_stack_changes self provider stack' body parameters tags
  = outcome →
  match outcome with
  | inr outputs =>
      DiffAction._diff_stack self context stack log
      = (Return DiffAction.COMPLETE,
         (DiffAction.set_outputs self stack' outputs, log))
  | inl exc =>
      exc ≠ StackDidNotChange →
      DiffAction._diff_stack self context stack log
      = (Raise exc, (stack', log))
  end.
Proof.
  intros Hc Hs Hu Hp Ht Hr Hpar Hb Hg. unfold Return, Raise in *.
  destruct outcome as [exc|outputs]; [intros Hexc|].
  all: unfold DiffAction._diff_stack, bind, Return, Raise.
  all: rewrite Hc, Hs, Hu; cbn [negb]; rewrite Hp, Ht, Hr, Hpar, Hb, Hg.
  - by destruct exc.
  - done.
Qed.

(** X25.  A status other than [COMPLETE] is returned before anything is done:
    the run is being cancelled, or the stack is not to be submitted, or not
    to be updated; the stack and the log are as they were. *)
Theorem diff_stack_skipped self (context : RunContext) stack log
    status stack' log' :
  DiffAction._diff_stack self context stack log
  = (Return status, (stack', log')) →
  status ≠ DiffAction.COMPLETE →
  stack' = stack ∧ log' = log
  ∧ match status with
    | DiffAction.INTERRUPTED => DiffAction.cancel_wait self = true
    | DiffAction.NotSubmittedStatus =>
        DiffAction.cancel_wait self = false
        ∧ DiffAction.should_submit self stack = false
    | DiffAction.NotUpdatedStatus =>
        DiffAction.cancel_wait self = false
        ∧ DiffAction.should_submit self stack = true
        ∧ DiffAction.should_update self stack = false
    | DiffAction.COMPLETE => False
    end.
Proof.
  unfold DiffAction._diff_stack.
  destruct (DiffAction.cancel_wait self).
  { intros [= <- <- <-] _. done. }
  destruct (DiffAction.should_submit self stack); cbn [negb].
  2:{ intros [= <- <- <-] _. done. }
  destruct (DiffAction.should_update self stack); cbn [negb].
  2:{ intros [= <- <- <-] _. done. }
  destruct (DiffAction.build_provider self stack) as [?|provider]; [done|].
  destruct (DiffAction.build_stack_tags self stack) as [?|tags]; [done|].
  destruct (DiffAction.stack_resolve self stack context provider)
    as [?|stack1]; [done|].
  destruct (DiffAction.build_parameters self stack1) as [?|parameters];
    [done|].
  destruct (bind _ _) as [exc|stack2].
  - destruct exc; try done. by intros [= <- <- <-] Hne.
  - by intros [= <- <- <-] Hne.
Qed.

End diff_action_more.

Lemma diff_stack_provider_outcome_witness :
  DiffAction._diff_stack changed_stack tt "vpc" []
  = (Return DiffAction.COMPLETE, ("vpc:VpcId", [])).
Proof.
  pose proof (diff_stack_provider_outcome changed_stack tt "vpc" []
                tt tt "vpc" tt tt (Return ["VpcId"])
                eq_refl eq_refl eq_refl eq_refl eq_refl eq_refl eq_refl
                eq_refl eq_refl) as H.
  exact H.
Defined.

Lemma diff_stack_skipped_witness :
  "vpc" = "vpc" ∧ @nil DiffAction.log_record = []
  ∧ DiffAction.cancel_wait cancelled_stack = true.
Proof.
  apply (diff_stack_skipped cancelled_stack tt "vpc" []
           DiffAction.INTERRUPTED "vpc" []).
  - reflexivity.
  - discriminate.
Defined.

(* ===================================================================== *)
(** * Properties of the commands and of the Docker options *)
(* ===================================================================== *)

Section commands.

Variable shlex_quote : value → result string.

Local Abbreviation merge_commands := (Commands.merge_commands shlex_quote).

Lemma kept_command cmd :
  is_command cmd = true → Commands.kept cmd = Return (py_truthy cmd).
Proof.
  unfold Commands.kept. destruct cmd as [|b|n|s|l|i mro r]; try done.
  - by destruct s.
  - by destruct l.
Qed.

Lemma kept_falsy cmd :
  py_truthy cmd = false → Commands.kept cmd = Return false.
Proof. unfold Commands.kept. by intros ->. Qed.


(** X26.  For commands that are nothing, text or lists, [filter_commands] keeps
    the ones that are true, in their order: the test of the length never
    fails and rejects nothing more. *)
Theorem filter_commands_truthy (commands : list value) :
  Forall (λ cmd, is_command cmd = true) commands →
  Commands.filter_commands commands = Return (List.filter py_truthy commands).
Proof.
  induction 1 as [|cmd commands Hcmd _ IH]; [done|].
  cbn [Commands.filter_commands List.filter].
  rewrite (kept_command _ Hcmd), IH. by destruct (py_truthy cmd).
Qed.

Lemma filter_commands_falsy (commands : list value) :
  Forall (λ cmd, py_truthy cmd = false) commands →
  Commands.filter_commands commands = Return [].
Proof.
  induction 1 as [|cmd commands Hcmd _ IH]; [done|].
  cbn [Commands.filter_commands]. by rewrite (kept_falsy _ Hcmd), IH.
Qed.

Lemma filter_commands_app pre post :
  Commands.filter_commands (pre ++ post)
  = let! cmds := Commands.filter_commands pre in
    let! cmds' := Commands.filter_commands post in
    Return (cmds ++ cmds').
Proof.
  induction pre as [|cmd pre IH].
  - cbn. by destruct (Commands.filter_commands post).
  - cbn [app Commands.filter_commands]. rewrite IH.
    destruct (Commands.kept cmd) as [e|keep]; [done|].
    destruct (Commands.filter_commands pre) as [e|cmds]; [done|].
    destruct (Commands.filter_commands post) as [e|cmds']; [done|].
    by destruct keep.
Qed.

(** X27.  One command among empty ones is returned as it is: it is not quoted,
    and no shell is put around it. *)
Theorem merge_commands_single (pre post : list value) (cmd : value) :
  Forall (λ c, py_truthy c = false) pre →
  Forall (λ c, py_truthy c = false) post →
  is_command cmd = true →
  py_truthy cmd = true →
  merge_commands (pre ++ cmd :: post) = Return cmd.
Proof.
  intros Hpre Hpost Hcmd Htrue. unfold Commands.merge_commands.
  rewrite filter_commands_app, (filter_commands_falsy _ Hpre).
  cbn [Commands.filter_commands].
  rewrite (kept_command _ Hcmd), Htrue, (filter_commands_falsy _ Hpost).
  done.
Qed.



End commands.

Lemma filter_commands_truthy_witness :
  Commands.filter_commands
    [VList [VStr "pip"; VStr "install"]; VNone; VList []; VStr ""]
  = Return [VList [VStr "pip"; VStr "install"]].
Proof.
  apply (filter_commands_truthy
           [VList [VStr "pip"; VStr "install"]; VNone; VList []; VStr ""]).
  by repeat constructor.
Defined.

Lemma merge_commands_single_witness :
  Commands.merge_commands quote_plain
    ([VNone; VList []] ++ VList [VStr "pip"; VStr "install"] :: [VStr ""])
  = Return (VList [VStr "pip"; VStr "install"]).
Proof.
  apply (merge_commands_single quote_plain [VNone; VList []] [VStr ""]
           (VList [VStr "pip"; VStr "install"])).
  - by repeat constructor.
  - by repeat constructor.
  - reflexivity.
  - reflexivity.
Defined.


(** X29.  A [Docker] object always has an image that is true.  It has a docker
    file only when one was given, no image was given and the runtime is
    true, and its image is then the default one of the runtime. *)
Theorem Docker_init_image (sys_platform : string)
    (dockerize_pip runtime docker_image docker_file : value) (d : Docker.t) :
  Docker.init sys_platform dockerize_pip runtime docker_image docker_file
  = Return d →
  py_truthy (Docker.image d) = true
  ∧ Docker.runtime d = runtime
  ∧ (∀ file, Docker.docker_file d = Some file →
       file = docker_file
       ∧ py_truthy docker_file = true
       ∧ py_truthy docker_image = false
       ∧ py_truthy runtime = true
       ∧ Docker.image d = VStr ("lambci/lambda:build-" +:+ py_str runtime)).
Proof.
  unfold Docker.init.
  destruct (py_truthy runtime) eqn:Hr, (py_truthy docker_image) eqn:Hi,
    (py_truthy docker_file) eqn:Hf; cbn [negb andb]; try done.
  all: intros [= <-]; cbn [Docker.image Docker.runtime Docker.docker_file].
  all: split_and!; try done.
  all: by intros file [= <-].
Qed.

Lemma Docker_init_image_witness :
  py_truthy (VStr "lambci/lambda:build-python3.7") = true
  ∧ VStr "python3.7" = VStr "python3.7"
  ∧ (∀ file, Some (VStr "./Dockerfile") = Some file →
       file = VStr "./Dockerfile"
       ∧ py_truthy (VStr "./Dockerfile") = true
       ∧ py_truthy VNone = false
       ∧ py_truthy (VStr "python3.7") = true
       ∧ VStr "lambci/lambda:build-python3.7"
         = VStr ("lambci/lambda:build-" +:+ py_str (VStr "python3.7"))).
Proof.
  apply (Docker_init_image "linux" (VBool true) (VStr "python3.7") VNone
           (VStr "./Dockerfile")
           (Docker.mk (VStr "python3.7") (VBool true)
              (Some (VStr "./Dockerfile"))
              (VStr "lambci/lambda:build-python3.7"))).
  reflexivity.
Defined.
